(** * Intent resolution and task dispatch of the Windows AI assistant

    A shallow embedding of [src/core/ai_engine.py] and
    [src/core/automation_engine.py]: the keyword intent classifier, the
    template-driven task parser, the response backend chain, and the task
    executor dispatch.

    Text is modelled as [string], a sequence of ASCII characters: the
    primitives of [PyStr] and [Re] below follow CPython's behaviour on ASCII
    text.  Dictionaries are [gmap]s; the remote language-model clients and
    the operating system are parameters of the sections that use them. *)

From Stdlib Require Import Ascii String QArith.
From stdpp Require Import gmap strings list fin_maps.

Local Open Scope string_scope.
Local Open Scope list_scope.

(** ** Python string primitives *)

Module PyStr.

(** [str.isspace] on one ASCII character: CPython's [_Py_ascii_whitespace]
    table holds 0x09-0x0D, 0x1C-0x1F and 0x20. *)
Definition isspace (c : ascii) : bool :=
  let n := N_of_ascii c in
  (((9 <=? n) && (n <=? 13)) || ((28 <=? n) && (n <=? 32)))%N.

Definition isupper (c : ascii) : bool :=
  let n := N_of_ascii c in ((65 <=? n) && (n <=? 90))%N.

Definition lower_char (c : ascii) : ascii :=
  if isupper c then ascii_of_N (N_of_ascii c + 32) else c.

(** [s.lower()] *)
Fixpoint lower (s : string) : string :=
  match s with
  | EmptyString => EmptyString
  | String c s' => String (lower_char c) (lower s')
  end.

(** [needle in hay] *)
Fixpoint contains (needle hay : string) : bool :=
  String.prefix needle hay ||
  match hay with
  | EmptyString => false
  | String _ hay' => contains needle hay'
  end.

(** [any(word in text for word in words)] *)
Definition any_in (words : list string) (text : string) : bool :=
  existsb (fun word => contains word text) words.

(** [s.split()]: maximal runs of non-whitespace characters.  [cur] is the
    word being read, if any. *)
Fixpoint split_go (cur : option string) (s : string) : list string :=
  match s with
  | EmptyString =>
      match cur with Some w => [w] | None => [] end
  | String c s' =>
      if isspace c then
        match cur with
        | Some w => w :: split_go None s'
        | None => split_go None s'
        end
      else
        split_go (Some (match cur with Some w => w +:+ String c "" | None => String c "" end)) s'
  end.

Definition split (s : string) : list string := split_go None s.

(** [sep.join(words)] *)
Fixpoint join (sep : string) (words : list string) : string :=
  match words with
  | [] => ""
  | [w] => w
  | w :: ws => w +:+ sep +:+ join sep ws
  end.

Fixpoint lstrip (s : string) : string :=
  match s with
  | String c s' => if isspace c then lstrip s' else s
  | EmptyString => EmptyString
  end.

(** [s.rstrip()]: a character is kept when it is not whitespace or when
    something is kept after it. *)
Fixpoint rstrip (s : string) : string :=
  match s with
  | EmptyString => EmptyString
  | String c s' =>
      match rstrip s' with
      | EmptyString => if isspace c then EmptyString else String c EmptyString
      | r => String c r
      end
  end.

(** [s.strip()] *)
Definition strip (s : string) : string := rstrip (lstrip s).

(** Truthiness of a string: [bool(s)] *)
Definition truthy (s : string) : bool :=
  match s with EmptyString => false | _ => true end.

(** the first [n] characters of [s] *)
Fixpoint take (n : nat) (s : string) : string :=
  match n, s with
  | S n', String c s' => String c (take n' s')
  | _, _ => EmptyString
  end.

Fixpoint drop (n : nat) (s : string) : string :=
  match n, s with
  | S n', String _ s' => drop n' s'
  | _, _ => s
  end.

End PyStr.

(** ** The fragment of Python's [re] used by the pattern tables

    A backtracking matcher with ordered choice, as [sre] explores it:
    alternatives left to right, greedy repetition from the longest run
    down, the optional group first with its body and then without.  The
    patterns of the program have at most one capturing group, so a match
    records group 0 and group 1. *)

Module Re.

(** [\s], [\w] and [.] *)
Inductive cclass := CSpace | CWord | CDot.

Definition isword (c : ascii) : bool :=
  let n := N_of_ascii c in
  (((48 <=? n) && (n <=? 57)) || ((65 <=? n) && (n <=? 90))
   || ((97 <=? n) && (n <=? 122)) || (n =? 95))%N.

Definition in_class (k : cclass) (c : ascii) : bool :=
  match k with
  | CSpace => PyStr.isspace c
  | CWord => isword c
  | CDot => negb (N_of_ascii c =? 10)%N
  end.

Inductive regex :=
| RLit (s : string)            (* a literal run of characters *)
| RPlus (k : cclass)           (* k+, greedy *)
| RSeq (r1 r2 : regex)         (* r1 r2 *)
| RAlt (r1 r2 : regex)         (* r1|r2 *)
| ROpt (r : regex)             (* (?:r)?, greedy *)
| RGroup (r : regex).          (* (r), capturing group 1 *)

(** number of capturing groups of a pattern: [len(match.groups())] *)
Fixpoint groups (r : regex) : nat :=
  match r with
  | RLit _ | RPlus _ => 0
  | RSeq r1 r2 | RAlt r1 r2 => groups r1 + groups r2
  | ROpt r => groups r
  | RGroup r => S (groups r)
  end.

(** A capture: the captured text, and how many characters of the searched
    text lie at or after the start of the capture. *)
Definition capture : Type := string * nat.

Section Exec.
Context {A : Type}.

(** After one character of the class was consumed: take more of them
    first, and give characters back one at a time while the
    continuation fails. *)
Fixpoint plus_more (p : ascii -> bool) (k : string -> option A) (s : string)
  : option A :=
  match s with
  | String c s' =>
      if p c then
        match plus_more p k s' with
        | Some x => Some x
        | None => k s
        end
      else k s
  | EmptyString => k s
  end.

(** [exec r k s g]: match [r] at the head of [s] with group 1 currently
    [g], and hand the rest of the text and the group to [k]; the first
    way of matching for which [k] succeeds is the result. *)
Fixpoint exec (r : regex) (k : string -> option capture -> option A)
  (s : string) (g : option capture) : option A :=
  match r with
  | RLit l =>
      if String.prefix l s then k (PyStr.drop (String.length l) s) g else None
  | RPlus c =>
      match s with
      | String a s' =>
          if in_class c a then plus_more (in_class c) (fun rest => k rest g) s'
          else None
      | EmptyString => None
      end
  | RSeq r1 r2 => exec r1 (fun rest g' => exec r2 k rest g') s g
  | RAlt r1 r2 =>
      match exec r1 k s g with
      | Some x => Some x
      | None => exec r2 k s g
      end
  | ROpt r1 =>
      match exec r1 k s g with
      | Some x => Some x
      | None => k s g
      end
  | RGroup r1 =>
      exec r1
        (fun rest _ =>
           k rest
             (Some (PyStr.take (String.length s - String.length rest) s,
                    String.length s)))
        s g
  end.
End Exec.

(** The part of a match object the program reads: [m.group(0)],
    [m.start(0)], [m.group(1)] and [m.start(1)]. *)
Record rmatch := {
  group0 : string;
  start0 : nat;
  group1 : option string;
  start1 : option nat
}.

(** [m.span(1)] *)
Definition span1 (m : rmatch) : option (nat * nat) :=
  match group1 m, start1 m with
  | Some g, Some i => Some (i, i + String.length g)
  | _, _ => None
  end.

(** A match anchored at the head of the suffix [s] of a text of [n]
    characters. *)
Definition match_here (r : regex) (n : nat) (s : string) : option rmatch :=
  match exec r (fun rest g => Some (rest, g)) s None with
  | Some (rest, g) =>
      Some {| group0 := PyStr.take (String.length s - String.length rest) s;
              start0 := n - String.length s;
              group1 := fst <$> g;
              start1 := (fun c : capture => n - snd c) <$> g |}
  | None => None
  end.

Fixpoint search_from (r : regex) (n : nat) (s : string) : option rmatch :=
  match match_here r n s with
  | Some m => Some m
  | None =>
      match s with
      | EmptyString => None
      | String _ s' => search_from r n s'
      end
  end.

(** [re.search(r, text)]: the match at the leftmost position that has
    one. *)
Definition search (r : regex) (text : string) : option rmatch :=
  search_from r (String.length text) text.

(** [match.group(1) if match.groups() else ""].  A group that took no
    part in the match reads as [None] in Python; [captures_group] below
    shows that this does not happen for the patterns of the program. *)
Definition group1_or_empty (r : regex) (m : rmatch) : string :=
  if (0 <? groups r)%nat then default "" (group1 m) else "".

(** [r] cannot match without setting group 1 *)
Fixpoint always_captures (r : regex) : bool :=
  match r with
  | RLit _ | RPlus _ | ROpt _ => false
  | RSeq r1 r2 => always_captures r1 || always_captures r2
  | RAlt r1 r2 => always_captures r1 && always_captures r2
  | RGroup _ => true
  end.

(** Builders for the pattern tables: a concatenation of pieces and an
    alternation of literal words, [(?:w1|w2|...)]. *)
Fixpoint cat (pieces : list regex) : regex :=
  match pieces with
  | [] => RLit ""
  | [r] => r
  | r :: rs => RSeq r (cat rs)
  end.

Fixpoint alt (words : list string) : regex :=
  match words with
  | [] => RLit ""
  | [w] => RLit w
  | w :: ws => RAlt (RLit w) (alt ws)
  end.

(** [\s+], [(\w+)] and [(.+)] *)
Definition ws : regex := RPlus CSpace.
Definition word_group : regex := RGroup (RPlus CWord).
Definition rest_group : regex := RGroup (RPlus CDot).

End Re.

(** ** Values and signals *)

(** The values stored in a parameter dictionary: a string or [None]. *)
Inductive pyval := PyNone | PyStr (s : string).

Global Instance pyval_eq_dec : EqDecision pyval.
Proof. solve_decision. Defined.

(** [match.group(1)] as a Python value *)
Definition pyval_of_group (g : option string) : pyval :=
  match g with Some s => PyStr s | None => PyNone end.

(** [str(v)], as an f-string prints a value *)
Definition pyval_str (v : pyval) : string :=
  match v with PyStr s => s | PyNone => "None" end.

(** The Qt signals the two engines emit, in the order of emission. *)
Inductive signal :=
| response_ready (text : string)
| task_completed (result : string)
| status_updated (status : string)
| error_occurred (message : string).

(** ** The AI engine: [src/core/ai_engine.py] *)

Module AIEngine.
Import PyStr Re.

(** The confidence is the quotient of two integers; it is kept as the
    exact rational that Python's division rounds to a float. *)
Record TaskIntent := {
  action : string;
  target : string;
  parameters : gmap string pyval;
  confidence : Q;
  task_type : string
}.

(** [setup_intent_classifier]: the buckets in insertion order *)
Definition intents : list (string * list string) :=
  [ ("automation",
      ["open"; "close"; "click"; "type"; "navigate"; "search";
       "start"; "stop"; "launch"; "switch"; "minimize"; "maximize"]);
    ("information",
      ["what"; "how"; "why"; "when"; "where"; "explain"; "tell";
       "show"; "find"; "search"; "lookup"]);
    ("workflow",
      ["record"; "save"; "create"; "edit"; "run"; "execute";
       "schedule"; "automate"; "workflow"]) ].

(** [self.intents[name]] *)
Definition bucket (name : string) : list string :=
  default [] (snd <$> List.find (fun kv => String.eqb (fst kv) name) intents).

Record template := {
  patterns : list regex;
  t_action : string;
  t_parameters : list string
}.

(** [load_task_templates]: the four templates, and the table in
    insertion order *)
Definition open_application : template :=
  {| patterns :=
       [ cat [RLit "open"; ws; word_group];
         cat [RLit "launch"; ws; word_group];
         cat [RLit "start"; ws; word_group] ];
     t_action := "open_app";
     t_parameters := ["app_name"] |}.

Definition web_search : template :=
  {| patterns :=
       [ cat [RLit "search"; ws; ROpt (cat [RLit "for"; ws]); rest_group];
         cat [RLit "google"; ws; rest_group];
         cat [RLit "find"; ws; rest_group] ];
     t_action := "web_search";
     t_parameters := ["query"] |}.

Definition file_operation : template :=
  {| patterns :=
       [ cat [alt ["open"; "create"; "save"; "delete"]; ws;
              alt ["file"; "folder"]; ws; rest_group];
         cat [alt ["open"; "create"; "save"; "delete"]; ws; rest_group] ];
     t_action := "file_operation";
     t_parameters := ["file_path"; "operation"] |}.

Definition system_control : template :=
  {| patterns :=
       [ cat [alt ["shutdown"; "restart"; "sleep"; "wake"]; ws;
              alt ["computer"; "pc"]];
         cat [alt ["volume"; "brightness"; "wifi"; "bluetooth"]; ws;
              alt ["up"; "down"; "on"; "off"]] ];
     t_action := "system_control";
     t_parameters := ["control_type"; "value"] |}.

Definition task_templates : list (string * template) :=
  [ ("open_application", open_application);
    ("web_search", web_search);
    ("file_operation", file_operation);
    ("system_control", system_control) ].

(** [name in names] on a list of strings *)
Definition mem (name : string) (names : list string) : bool :=
  existsb (String.eqb name) names.

(** The three regexes of [extract_parameters]. *)
Definition app_name_re : regex :=
  cat [alt ["open"; "launch"; "start"]; ws; word_group].
Definition query_re : regex :=
  cat [alt ["search"; "google"; "find"]; ws; ROpt (cat [RLit "for"; ws]); rest_group].
Definition file_path_re : regex :=
  cat [alt ["file"; "folder"]; ws; rest_group].

(** One [if name in template.get('parameters', []): ...] block. *)
Definition extract_one (name : string) (re : regex) (message : string)
  (t : template) (parameters : gmap string pyval) : gmap string pyval :=
  if mem name (t_parameters t) then
    match search re (lower message) with
    | Some m => <[name := pyval_of_group (group1 m)]> parameters
    | None => parameters
    end
  else parameters.

Definition extract_parameters (message : string) (t : template)
  : gmap string pyval :=
  let parameters := ∅ in
  let parameters := extract_one "app_name" app_name_re message t parameters in
  let parameters := extract_one "query" query_re message t parameters in
  let parameters := extract_one "file_path" file_path_re message t parameters in
  parameters.

(** The inner loop of [extract_action_target]: the first pattern of the
    list that matches, with its match. *)
Fixpoint first_pattern (ps : list regex) (text : string)
  : option (regex * rmatch) :=
  match ps with
  | [] => None
  | p :: ps' =>
      match search p text with
      | Some m => Some (p, m)
      | None => first_pattern ps' text
      end
  end.

(** The outer loop: the first template one of whose patterns matches. *)
Fixpoint first_template (ts : list (string * template)) (text : string)
  : option (template * regex * rmatch) :=
  match ts with
  | [] => None
  | (_, t) :: ts' =>
      match first_pattern (patterns t) text with
      | Some (p, m) => Some (t, p, m)
      | None => first_template ts' text
      end
  end.

Definition extract_action_target (message : string)
  : string * string * gmap string pyval :=
  let message_lower := lower message in
  match first_template task_templates message_lower with
  | Some (t, p, m) =>
      (t_action t, group1_or_empty p m, extract_parameters message t)
  | None =>
      match split message_lower with
      | w :: ((_ :: _) as rest) => (w, join " " rest, ∅)
      | _ => ("unknown", message, ∅)
      end
  end.

(** [sum(1 for word in words if word in text)] *)
Fixpoint keyword_hits (words : list string) (text : string) : nat :=
  match words with
  | [] => 0
  | word :: words' =>
      (if contains word text then 1 else 0) + keyword_hits words' text
  end.

(** [max(scores, key=scores.get)] over the items after the first, [best]
    being the largest so far: a later key replaces it only with a
    strictly larger score. *)
Fixpoint max_by_score (best : string * nat) (items : list (string * nat))
  : string * nat :=
  match items with
  | [] => best
  | kv :: items' =>
      max_by_score (if (snd best <? snd kv)%nat then kv else best) items'
  end.

Definition parse_intent (message : string) : TaskIntent :=
  let message_lower := lower message in
  let automation_score := keyword_hits (bucket "automation") message_lower in
  let info_score := keyword_hits (bucket "information") message_lower in
  let workflow_score := keyword_hits (bucket "workflow") message_lower in
  let '(winner, winning_score) :=
    max_by_score ("automation", automation_score)
      [("information", info_score); ("workflow", workflow_score)] in
  let '(action, target, parameters) := extract_action_target message in
  {| action := action;
     target := target;
     parameters := parameters;
     confidence :=
       Z.of_nat winning_score # Pos.of_nat (Nat.max (length (split message)) 1);
     task_type := winner |}.

(** *** Response generation *)

(** The response backends, in the order of the chain. *)
Inductive backend := Gemini | OpenAI | Local.

Global Instance backend_eq_dec : EqDecision backend.
Proof. solve_decision. Defined.

(** What [setup_ai_models] leaves in the engine and its configuration. *)
Record engine := {
  use_openai : bool;
  use_gemini : bool;
  api_key : option string;
  gemini_api_key : option string
}.

(** Truthiness of an [Optional[str]] *)
Definition key_set (k : option string) : bool :=
  match k with Some s => truthy s | None => false end.

Definition gemini_configured (e : engine) : bool :=
  use_gemini e && key_set (gemini_api_key e).
Definition openai_configured (e : engine) : bool :=
  use_openai e && key_set (api_key e).

Definition nl : string := String (ascii_of_N 10) "".

Definition gemini_prompt (message : string) : string :=
  "You are a helpful Windows AI assistant. Provide concise, helpful responses about Windows automation, computer tasks, and general computing questions."
  +:+ nl +:+ nl +:+ "User: " +:+ message +:+ nl +:+ nl +:+ "Assistant:".

Definition local_greeting : string :=
  "Hello! I'm your Windows AI Assistant. How can I help you today?".
Definition local_help : string :=
  "I can help you with:" +:+ nl +:+
  "• Opening applications and files" +:+ nl +:+
  "• Web searches and browsing" +:+ nl +:+
  "• File and folder operations" +:+ nl +:+
  "• System controls (volume, brightness, etc.)" +:+ nl +:+
  "• Creating and running workflows" +:+ nl +:+
  "• Answering questions about Windows" +:+ nl +:+
  "Just tell me what you'd like to do!".
Definition local_open : string :=
  "I can help you open applications and files. Just tell me what you'd like to open!".
Definition local_search : string :=
  "I can help you search the web or find files on your computer. What are you looking for?".
Definition local_generic : string :=
  "I understand you're asking about that. Let me help you with that task or question!".

(** [generate_local_response]: nothing in its [try] block can raise on a
    string, so its handler is not reached. *)
Definition generate_local_response (message : string) : string :=
  let message_lower := lower message in
  if any_in ["hello"; "hi"; "hey"] message_lower then local_greeting
  else if any_in ["help"; "what can you do"] message_lower then local_help
  else if any_in ["open"; "launch"; "start"] message_lower then local_open
  else if any_in ["search"; "find"; "google"] message_lower then local_search
  else local_generic.

Section Backends.
(** The remote clients: the text of the reply, or [None] when the call
    (or reading the reply) raises. *)
Variable gemini_generate_content : string -> option string.
Variable openai_chat_completion : string -> option string.
Variable e : engine.

(** Each function returns the backends it entered, in order, with its
    reply. *)
Definition generate_gemini_response (message : string)
  : list backend * string :=
  match gemini_generate_content (gemini_prompt message) with
  | Some text => ([Gemini], strip text)
  | None => ([Gemini; Local], generate_local_response message)
  end.

Definition generate_openai_response (message : string)
  : list backend * string :=
  match openai_chat_completion message with
  | Some content => ([OpenAI], strip content)
  | None => ([OpenAI; Local], generate_local_response message)
  end.

(** The three callees catch every exception themselves, so the handler
    of [generate_chat_response] is not reached. *)
Definition generate_chat_response (message : string)
  : list backend * string :=
  if gemini_configured e then generate_gemini_response message
  else if openai_configured e then generate_openai_response message
  else ([Local], generate_local_response message).

(** The confidence is compared with the literal [0.3]; on the exact
    quotient the comparison is with 3/10. *)
Definition handle_automation_intent (message : string) (intent : TaskIntent)
  : string :=
  if negb (Qle_bool (confidence intent) (3 # 10)) then
    "I'll help you with that automation task: " +:+ action intent +:+ " "
    +:+ target intent +:+ ". "
    +:+ "Processing this request through the automation engine..."
  else
    "I'm not sure what automation you'd like me to perform. "
    +:+ "Could you be more specific about what you want me to do?".

Definition handle_information_intent (message : string) (intent : TaskIntent)
  : string :=
  snd (generate_chat_response message).

Definition handle_workflow_intent (message : string) (intent : TaskIntent)
  : string :=
  "I'll help you with workflow management: " +:+ action intent +:+ " "
  +:+ target intent +:+ ". "
  +:+ "Processing this through the workflow system...".

(** The branch of [process_message] taken for a task type. *)
Inductive branch :=
| AutomationBranch | InformationBranch | WorkflowBranch | ChatBranch.

Definition select_branch (task_type : string) : branch :=
  if String.eqb task_type "automation" then AutomationBranch
  else if String.eqb task_type "information" then InformationBranch
  else if String.eqb task_type "workflow" then WorkflowBranch
  else ChatBranch.

Definition process_message (message : string) : list signal :=
  let intent := parse_intent message in
  let response :=
    match select_branch (task_type intent) with
    | AutomationBranch => handle_automation_intent message intent
    | InformationBranch => handle_information_intent message intent
    | WorkflowBranch => handle_workflow_intent message intent
    | ChatBranch => snd (generate_chat_response message)
    end in
  [ status_updated "Processing message...";
    response_ready response;
    status_updated "Response ready" ].
End Backends.

End AIEngine.

(** ** The automation engine: [src/core/automation_engine.py] *)

Module AutomationEngine.
Import PyStr Re.

Record AutomationTask := {
  action : string;
  target : string;
  parameters : gmap string pyval;
  background_mode : bool
}.

(** [setup_app_mappings] *)
Definition app_mappings : gmap string string :=
  list_to_map
    [ ("chrome", "chrome"); ("google chrome", "chrome");
      ("firefox", "firefox"); ("mozilla", "firefox");
      ("edge", "edge"); ("microsoft edge", "edge");
      ("word", "word"); ("microsoft word", "word");
      ("excel", "excel"); ("microsoft excel", "excel");
      ("powerpoint", "powerpoint"); ("microsoft powerpoint", "powerpoint");
      ("outlook", "outlook"); ("microsoft outlook", "outlook");
      ("notepad", "notepad"); ("calculator", "calculator");
      ("calc", "calculator"); ("explorer", "explorer");
      ("file explorer", "explorer"); ("files", "explorer");
      ("visual studio", "devenv"); ("vs code", "code"); ("vscode", "code");
      ("visual studio code", "code"); ("pycharm", "pycharm64");
      ("intellij", "idea64"); ("sublime", "sublime_text");
      ("spotify", "spotify"); ("vlc", "vlc");
      ("media player", "wmplayer"); ("windows media player", "wmplayer") ].

(** [for pattern in patterns: match = re.search(...); if match: ...; break]:
    group 1 of the first pattern that matches. *)
Fixpoint first_group (ps : list regex) (text : string) : option string :=
  match ps with
  | [] => None
  | p :: ps' =>
      match search p text with
      | Some m => group1 m
      | None => first_group ps' text
      end
  end.

(** Truthiness of a value that is a string or [None] *)
Definition some_truthy (v : option string) : bool :=
  match v with Some s => truthy s | None => false end.

(** [v or 'unknown'] *)
Definition or_unknown (v : option string) : string :=
  match v with
  | Some s => if truthy s then s else "unknown"
  | None => "unknown"
  end.

Definition pyval_of (v : option string) : pyval := pyval_of_group v.

Definition parse_open_app_request (request : string) (background_mode : bool)
  : AutomationTask :=
  let request_lower := lower request in
  let app_name :=
    first_group
      [ cat [RLit "open"; ws; word_group];
        cat [RLit "launch"; ws; word_group];
        cat [RLit "start"; ws; word_group] ] request_lower in
  let app_name :=
    if negb (some_truthy app_name) then
      List.find (fun word => bool_decide (is_Some (app_mappings !! word)))
        (split request_lower)
    else app_name in
  match app_name with
  | Some name =>
      if truthy name then
        let mapped_app := default name (app_mappings !! name) in
        {| action := "open_app";
           target := mapped_app;
           parameters :=
             <["mapped_app" := PyStr mapped_app]>
               (<["app_name" := PyStr name]> ∅);
           background_mode := background_mode |}
      else
        {| action := "open_app";
           target := "unknown";
           parameters := <["app_name" := PyStr "unknown"]> ∅;
           background_mode := background_mode |}
  | None =>
      {| action := "open_app";
         target := "unknown";
         parameters := <["app_name" := PyStr "unknown"]> ∅;
         background_mode := background_mode |}
  end.

(** [query = match.group(1).strip()] for the first pattern that matches *)
Definition parse_web_search_request (request : string) (background_mode : bool)
  : AutomationTask :=
  let request_lower := lower request in
  let query :=
    strip <$>
      first_group
        [ cat [RLit "search"; ws; ROpt (cat [RLit "for"; ws]); rest_group];
          cat [RLit "google"; ws; rest_group];
          cat [RLit "find"; ws; rest_group] ] request_lower in
  {| action := "web_search";
     target := or_unknown query;
     parameters := <["query" := pyval_of query]> ∅;
     background_mode := background_mode |}.

Definition parse_file_operation_request (request : string)
  (background_mode : bool) : AutomationTask :=
  let request_lower := lower request in
  let operation :=
    if contains "create" request_lower then "create"
    else if contains "delete" request_lower || contains "remove" request_lower
         then "delete"
    else if contains "save" request_lower then "save"
    else "open" in
  let file_path :=
    strip <$>
      first_group
        [ cat [alt ["file"; "folder"]; ws; rest_group];
          cat [alt ["open"; "create"; "save"; "delete"]; ws; rest_group] ]
        request_lower in
  {| action := "file_operation";
     target := or_unknown file_path;
     parameters :=
       <["file_path" := pyval_of file_path]>
         (<["operation" := PyStr operation]> ∅);
     background_mode := background_mode |}.

Definition parse_system_control_request (request : string)
  (background_mode : bool) : AutomationTask :=
  let request_lower := lower request in
  let control_type :=
    if contains "volume" request_lower then Some "volume"
    else if contains "brightness" request_lower then Some "brightness"
    else if contains "wifi" request_lower then Some "wifi"
    else if contains "bluetooth" request_lower then Some "bluetooth"
    else None in
  let value :=
    if contains "up" request_lower || contains "increase" request_lower
    then Some "up"
    else if contains "down" request_lower || contains "decrease" request_lower
    then Some "down"
    else if contains "on" request_lower || contains "enable" request_lower
    then Some "on"
    else if contains "off" request_lower || contains "disable" request_lower
    then Some "off"
    else None in
  {| action := "system_control";
     target := or_unknown control_type;
     parameters :=
       <["value" := pyval_of value]>
         (<["control_type" := pyval_of control_type]> ∅);
     background_mode := background_mode |}.

(** The word after the first of [click], [type], [press] that has one. *)
Fixpoint word_after_verb (words : list string) : option string :=
  match words with
  | word :: ((next :: _) as words') =>
      if existsb (String.eqb word) ["click"; "type"; "press"] then Some next
      else word_after_verb words'
  | _ => None
  end.

Definition parse_interaction_request (request : string)
  (background_mode : bool) : AutomationTask :=
  let request_lower := lower request in
  let action :=
    if contains "click" request_lower then "click"
    else if contains "type" request_lower || contains "enter" request_lower
    then "type"
    else if contains "press" request_lower then "press"
    else "click" in
  let target := word_after_verb (split request_lower) in
  {| action := action;
     target := or_unknown target;
     parameters :=
       <["target" := pyval_of target]> (<["action" := PyStr action]> ∅);
     background_mode := background_mode |}.

Definition parse_automation_request (request : string)
  (background_mode : bool) : option AutomationTask :=
  let request_lower := lower request in
  if any_in ["open"; "launch"; "start"] request_lower then
    Some (parse_open_app_request request background_mode)
  else if any_in ["search"; "google"; "find"] request_lower then
    Some (parse_web_search_request request background_mode)
  else if any_in ["file"; "folder"; "document"] request_lower then
    Some (parse_file_operation_request request background_mode)
  else if any_in ["volume"; "brightness"; "wifi"; "bluetooth"] request_lower then
    Some (parse_system_control_request request background_mode)
  else if any_in ["click"; "type"; "press"] request_lower then
    Some (parse_interaction_request request background_mode)
  else None.

(** *** Executors *)

(** The calls [perform_file_operation] makes on the host. *)
Inductive os_action :=
| StartFile (path : string)      (* os.startfile(path) *)
| MakeDirs (path : string)       (* os.makedirs(path, exist_ok=True) *)
| CreateEmpty (path : string)    (* open(path, 'w') *)
| RmDir (path : string)          (* os.rmdir(path) *)
| Remove (path : string).        (* os.remove(path) *)

(** The host operating system as the executor sees it.  [perform a] is
    [None] when the call returns and [Some e] when it raises an exception
    whose text is [e]. *)
Record host := {
  path_exists : string -> bool;
  path_isdir : string -> bool;
  path_basename : string -> string;
  perform : os_action -> option string
}.

Section Executors.
Variable h : host.

(** One host call inside the [try] block: the result string when it
    returns, the handler's string when it raises. *)
Definition attempt (a : os_action) (result : string)
  : list os_action * string :=
  match perform h a with
  | None => ([a], result)
  | Some e => ([a], "Error with file operation: " +:+ e)
  end.

Definition perform_file_operation (file_path : string)
  (parameters : gmap string pyval) : list os_action * string :=
  let operation := default (PyStr "open") (parameters !! "operation") in
  if bool_decide (operation = PyStr "open") then
    if path_exists h file_path then
      attempt (StartFile file_path) ("Opened: " +:+ file_path)
    else ([], "File not found: " +:+ file_path)
  else if bool_decide (operation = PyStr "create") then
    if path_isdir h file_path
       || negb (contains "." (path_basename h file_path)) then
      attempt (MakeDirs file_path) ("Created folder: " +:+ file_path)
    else
      attempt (CreateEmpty file_path) ("Created file: " +:+ file_path)
  else if bool_decide (operation = PyStr "delete") then
    if path_exists h file_path then
      if path_isdir h file_path then
        attempt (RmDir file_path) ("Deleted folder: " +:+ file_path)
      else
        attempt (Remove file_path) ("Deleted file: " +:+ file_path)
    else ([], "File not found: " +:+ file_path)
  else ([], "Unknown operation: " +:+ pyval_str operation).

(** The other executors drive processes, the browser and the pointer;
    each catches its own exceptions and returns a result string. *)
Variable open_application : string -> gmap string pyval -> string.
Variable perform_web_search : string -> gmap string pyval -> string.
Variable perform_system_control : string -> gmap string pyval -> string.
Variable perform_interaction : string -> string -> gmap string pyval -> string.

(** [execute_task]: the signals it emits.  The [finally] block clears
    [is_running] and [current_task] on every path. *)
Definition execute_task (task : AutomationTask) : list signal :=
  let result :=
    if String.eqb (action task) "open_app" then
      open_application (target task) (parameters task)
    else if String.eqb (action task) "web_search" then
      perform_web_search (target task) (parameters task)
    else if String.eqb (action task) "file_operation" then
      snd (perform_file_operation (target task) (parameters task))
    else if String.eqb (action task) "system_control" then
      perform_system_control (target task) (parameters task)
    else if existsb (String.eqb (action task)) ["click"; "type"; "press"] then
      perform_interaction (action task) (target task) (parameters task)
    else "Unknown action: " +:+ action task in
  [ status_updated ("Executing: " +:+ action task +:+ " " +:+ target task);
    task_completed result;
    status_updated "Task completed" ].
End Executors.

End AutomationEngine.

(** ** Notions used to state the properties

    Counts and predicates over the tables of the classifier. *)

Module ClassifierDefs.
Import PyStr AIEngine.

(** The number of keywords of a bucket that occur in the lower-cased
    message. *)
Definition hits (name message : string) : nat :=
  length (List.filter (fun word => contains word (lower message)) (bucket name)).

(** No keyword of any bucket occurs in the lower-cased message. *)
Definition no_keyword (message : string) : Prop :=
  Forall (fun kv : string * list string =>
            Forall (fun word => contains word (lower message) = false) (snd kv))
    intents.

End ClassifierDefs.

(** The rules of the parser in the order they are tried, and the parameter
    pass as the specification words it. *)

Module ParserDefs.
Import PyStr Re AIEngine.

(** The (template, pattern) pairs in the order [extract_action_target]
    tries them: template by template, and within a template pattern by
    pattern. *)
Definition rules_of (ts : list (string * template)) : list (template * regex) :=
  flat_map (fun kv => List.map (fun p => (snd kv, p)) (patterns (snd kv))) ts.

Definition rules : list (template * regex) := rules_of task_templates.

(** No pattern of any template matches the text. *)
Definition no_rule_matches (text : string) : Prop :=
  Forall (fun tp : template * regex => search (snd tp) text = None) rules.

(** The first rule of the list at index [i] matches, and none before it. *)
Definition first_match_at (rs : list (template * regex)) (text : string)
  (i : nat) (t : template) (p : regex) (m : rmatch) : Prop :=
  rs !! i = Some (t, p)
  /\ search p text = Some m
  /\ forall j t' p', j < i -> rs !! j = Some (t', p') -> search p' text = None.

(** The parameter names [extract_parameters] knows, with their regexes. *)
Definition param_regexes : list (string * regex) :=
  [ ("app_name", app_name_re); ("query", query_re); ("file_path", file_path_re) ].

(** The parameter pass as the specification words it: each regex applied
    to the original message, not lower-cased. *)
Definition extract_one_original (name : string) (re : regex) (message : string)
  (t : template) (parameters : gmap string pyval) : gmap string pyval :=
  if mem name (t_parameters t) then
    match search re message with
    | Some m => <[name := pyval_of_group (group1 m)]> parameters
    | None => parameters
    end
  else parameters.

Definition extract_parameters_original (message : string) (t : template)
  : gmap string pyval :=
  let parameters := ∅ in
  let parameters :=
    extract_one_original "app_name" app_name_re message t parameters in
  let parameters :=
    extract_one_original "query" query_re message t parameters in
  let parameters :=
    extract_one_original "file_path" file_path_re message t parameters in
  parameters.

End ParserDefs.

(** The known action tags and the default of the file executor. *)

Module DispatchDefs.
Import PyStr Re.
Import AutomationEngine.

(** The action tags [execute_task] has an executor for. *)
Definition known_actions : list string :=
  ["open_app"; "web_search"; "file_operation"; "system_control";
   "click"; "type"; "press"].

(** What the [open] branch of the file executor does. *)
Definition open_file (h : host) (file_path : string) : list os_action * string :=
  if path_exists h file_path then
    attempt h (StartFile file_path) ("Opened: " +:+ file_path)
  else ([], "File not found: " +:+ file_path).

(** A host on which every path exists and no call fails. *)
Definition easy_host : host :=
  {| path_exists := fun _ => true;
     path_isdir := fun _ => false;
     path_basename := fun p => p;
     perform := fun _ => None |}.

End DispatchDefs.

(** The backend chain as the specification words it, and sample engines. *)

Module ChainDefs.
Import PyStr AIEngine.

(** The five replies of the local responder. *)
Definition local_replies : list string :=
  [local_greeting; local_help; local_open; local_search; local_generic].

(** The chain as the specification words it: the tiers attempted in
    order, a fault of a remote tier passing on to the next tier. *)
Definition chain_by_tiers (gemini_generate_content : string -> option string)
  (openai_chat_completion : string -> option string) (e : engine)
  (message : string) : list backend * string :=
  let tier3 := ([Local], generate_local_response message) in
  let tier2 :=
    if openai_configured e then
      match openai_chat_completion message with
      | Some content => ([OpenAI], strip content)
      | None => (OpenAI :: fst tier3, snd tier3)
      end
    else tier3 in
  if gemini_configured e then
    match gemini_generate_content (gemini_prompt message) with
    | Some text => ([Gemini], strip text)
    | None => (Gemini :: fst tier2, snd tier2)
    end
  else tier2.

(** An engine with both remote backends configured. *)
Definition both_configured : engine :=
  {| use_openai := true; use_gemini := true;
     api_key := Some "sk-test"; gemini_api_key := Some "g-test" |}.

(** An engine with no remote backend configured. *)
Definition none_configured : engine :=
  {| use_openai := false; use_gemini := false;
     api_key := None; gemini_api_key := None |}.

End ChainDefs.

(** ** Further notions: characters of a string, shapes of a pattern *)

Module TextDefs.
Import PyStr Re.

(** Every character of the string satisfies [p]. *)
Fixpoint all_chars (p : ascii -> bool) (s : string) : bool :=
  match s with
  | EmptyString => true
  | String c s' => p c && all_chars p s'
  end.

(** [s.replace(a, b)] for a one-character [a] *)
Fixpoint replace_char (a : ascii) (b : string) (s : string) : string :=
  match s with
  | EmptyString => EmptyString
  | String c s' =>
      (if Ascii.eqb c a then b else String c "") +:+ replace_char a b s'
  end.

(** A 7-bit character, and a text made of such characters only. *)
Definition is_ascii (c : ascii) : bool := (N_of_ascii c <? 128)%N.

Definition ascii_text (s : string) : Prop := all_chars is_ascii s = true.

Definition cclass_eqb (a b : cclass) : bool :=
  match a, b with
  | CSpace, CSpace | CWord, CWord | CDot, CDot => true
  | _, _ => false
  end.

(** Every match of the pattern takes at least one character. *)
Fixpoint consumes (r : regex) : bool :=
  match r with
  | RLit l => truthy l
  | RPlus _ => true
  | RSeq r1 r2 => consumes r1 || consumes r2
  | RAlt r1 r2 => consumes r1 && consumes r2
  | ROpt _ => false
  | RGroup r1 => consumes r1
  end.

(** Every group of the pattern is a run of the class [c]: [(c+)]. *)
Fixpoint group_class (c : cclass) (r : regex) : bool :=
  match r with
  | RLit _ | RPlus _ => true
  | RSeq r1 r2 | RAlt r1 r2 => group_class c r1 && group_class c r2
  | ROpt r1 => group_class c r1
  | RGroup (RPlus c') => cclass_eqb c' c
  | RGroup _ => false
  end.

(** The pattern has no group. *)
Fixpoint groupless (r : regex) : bool :=
  match r with
  | RLit _ | RPlus _ => true
  | RSeq r1 r2 | RAlt r1 r2 => groupless r1 && groupless r2
  | ROpt r1 => groupless r1
  | RGroup _ => false
  end.

(** What one successful run of [exec] on [r] at the head of [s] did before
    it called its continuation: it took [n] characters, and left the group
    [g'], which is the group [g] it started with or the text of [m]
    characters taken [i] characters into [s]. *)
Definition step_result (r : regex) (s : string) (g : option capture)
  (n : nat) (g' : option capture) : Prop :=
  n <= String.length s
  /\ (consumes r = true -> 0 < n)
  /\ (forall c, r = RPlus c -> all_chars (in_class c) (take n s) = true)
  /\ (g' = g
      \/ exists i m,
           i + m <= n
           /\ g' = Some (take m (drop i s), String.length s - i)
           /\ forall c, group_class c r = true ->
                        0 < m /\ all_chars (in_class c) (take m (drop i s)) = true)
  /\ (groupless r = true -> g' = g).

End TextDefs.

(** ** Setting up the backends: [AIEngine.setup_ai_models] *)

Module AISetup.
Import PyStr AIEngine.

(** The fields of [AIConfig] that concern the remote backends. *)
Record AIConfig := {
  cfg_api_key : option string;
  cfg_gemini_api_key : option string;
  cfg_use_gemini : bool
}.

(** [setup_ai_models].  [GEMINI_AVAILABLE] tells whether the Gemini module
    was imported; [gemini_client_ok] whether [genai.configure] and
    [genai.GenerativeModel] return rather than raise.  An exception leaves
    both flags off; [setup_local_models] catches its own. *)
Definition setup_ai_models (GEMINI_AVAILABLE gemini_client_ok : bool)
  (cfg : AIConfig) : engine :=
  let use_openai := key_set (cfg_api_key cfg) in
  if GEMINI_AVAILABLE && key_set (cfg_gemini_api_key cfg) then
    if gemini_client_ok then
      {| use_openai := use_openai; use_gemini := true;
         api_key := cfg_api_key cfg; gemini_api_key := cfg_gemini_api_key cfg |}
    else
      {| use_openai := false; use_gemini := false;
         api_key := cfg_api_key cfg; gemini_api_key := cfg_gemini_api_key cfg |}
  else
    {| use_openai := use_openai; use_gemini := false;
       api_key := cfg_api_key cfg; gemini_api_key := cfg_gemini_api_key cfg |}.

(** The engine as the chain sees it once the shared configuration has
    become [cfg]: [use_openai] and [use_gemini] are attributes of the engine
    that only [setup_ai_models] writes, while the keys are read from
    [self.ai_config] at every call, and the settings dialog rewrites them in
    place. *)
Definition with_keys (e : engine) (cfg : AIConfig) : engine :=
  {| use_openai := use_openai e;
     use_gemini := use_gemini e;
     api_key := cfg_api_key cfg;
     gemini_api_key := cfg_gemini_api_key cfg |}.

End AISetup.

(** ** The other executors and [process_request] *)

Module Executors.
Import PyStr Re AutomationEngine TextDefs.

(** [setup_automation]: the two tables *)
Definition app_paths : gmap string string :=
  list_to_map
    [ ("chrome", "C:\Program Files\Google\Chrome\Application\chrome.exe");
      ("firefox", "C:\Program Files\Mozilla Firefox\firefox.exe");
      ("edge", "C:\Program Files (x86)\Microsoft\Edge\Application\msedge.exe");
      ("notepad", "C:\Windows\System32\notepad.exe");
      ("calculator", "C:\Windows\System32\calc.exe");
      ("explorer", "C:\Windows\explorer.exe");
      ("word", "C:\Program Files\Microsoft Office\root\Office16\WINWORD.EXE");
      ("excel", "C:\Program Files\Microsoft Office\root\Office16\EXCEL.EXE");
      ("powerpoint", "C:\Program Files\Microsoft Office\root\Office16\POWERPNT.EXE");
      ("outlook", "C:\Program Files\Microsoft Office\root\Office16\OUTLOOK.EXE") ].

Definition app_aliases : gmap string string :=
  list_to_map
    [ ("browser", "chrome"); ("web browser", "chrome"); ("internet", "chrome");
      ("text editor", "notepad"); ("calc", "calculator");
      ("file manager", "explorer"); ("files", "explorer") ].

Definition get_app_path (app_name : string) : option string :=
  match app_paths !! app_name with
  | Some path => Some path
  | None =>
      match app_aliases !! app_name with
      | Some mapped_app => app_paths !! mapped_app
      | None =>
          match app_mappings !! app_name with
          | Some mapped_app => app_paths !! mapped_app
          | None => None
          end
      end
  end.

(** A region of the screen, as [locateOnScreen] returns it. *)
Definition box : Type := Z * Z * Z * Z.

(** The calls the executors make on the desktop. *)
Inductive desktop_call :=
| Popen (argv : list string)          (* subprocess.Popen(argv) *)
| BrowserOpen (url : string)          (* webbrowser.open(url) *)
| PressKey (key : string)             (* pyautogui.press(key) *)
| ClickHere                           (* pyautogui.click() *)
| LocateOnScreen (image : string)     (* pyautogui.locateOnScreen(image) *)
| ClickAt (location : box)            (* pyautogui.click(location) *)
| TypeWrite (text : string).          (* pyautogui.typewrite(text) *)

(** How [subprocess.Popen] ends: it returns, raises [FileNotFoundError], or
    raises another exception; [e] is the text of the exception. *)
Inductive launch := Started | NotFound (e : string) | LaunchError (e : string).

(** How [locateOnScreen] ends: a region, [None], or an exception. *)
Inductive located := Located (b : box) | NotOnScreen | LocateFailed.

(** The desktop as the executors see it; [Some e] is an exception with
    text [e]. *)
Record desktop := {
  popen : list string -> launch;
  webbrowser_open : string -> option string;
  press : string -> option string;
  click : option box -> option string;
  locate_on_screen : string -> located;
  typewrite : string -> option string
}.

Section Desktop.
Variable h : host.
Variable d : desktop.

(** [subprocess.Popen([app_name])] inside its own [try]. *)
Definition launch_by_name (app_name : string) : list desktop_call * string :=
  match popen d [app_name] with
  | Started => ([Popen [app_name]], "Opened " +:+ app_name)
  | NotFound _ =>
      ([Popen [app_name]], "Could not find application: " +:+ app_name)
  | LaunchError e =>
      ([Popen [app_name]], "Error opening " +:+ app_name +:+ ": " +:+ e)
  end.

Definition open_application (app_name : string)
  (parameters : gmap string pyval) : list desktop_call * string :=
  match get_app_path app_name with
  | Some app_path =>
      if truthy app_path && path_exists h app_path then
        match popen d [app_path] with
        | Started => ([Popen [app_path]], "Opened " +:+ app_name)
        | NotFound e | LaunchError e =>
            ([Popen [app_path]], "Error opening " +:+ app_name +:+ ": " +:+ e)
        end
      else launch_by_name app_name
  | None => launch_by_name app_name
  end.

Definition search_url (query : string) : string :=
  "https://www.google.com/search?q=" +:+ replace_char " " "+" query.

Definition perform_web_search (query : string)
  (parameters : gmap string pyval) : list desktop_call * string :=
  let url := search_url query in
  let via_chrome :=
    match app_paths !! "chrome" with
    | Some chrome_path =>
        if truthy chrome_path && path_exists h chrome_path
        then Some chrome_path else None
    | None => None
    end in
  match via_chrome with
  | Some chrome_path =>
      match popen d [chrome_path; url] with
      | Started => ([Popen [chrome_path; url]], "Searched for: " +:+ query)
      | NotFound e | LaunchError e =>
          ([Popen [chrome_path; url]],
           "Error searching for " +:+ query +:+ ": " +:+ e)
      end
  | None =>
      match webbrowser_open d url with
      | None => ([BrowserOpen url], "Searched for: " +:+ query)
      | Some e =>
          ([BrowserOpen url], "Error searching for " +:+ query +:+ ": " +:+ e)
      end
  end.

(** [pyautogui.press(key)] followed by [return result], inside the [try]. *)
Definition press_then (key result : string) : list desktop_call * string :=
  match press d key with
  | None => ([PressKey key], result)
  | Some e => ([PressKey key], "Error with system control: " +:+ e)
  end.

Definition perform_system_control (control_type : string)
  (parameters : gmap string pyval) : list desktop_call * string :=
  let value := default (PyStr "unknown") (parameters !! "value") in
  let unknown := ([], "Unknown control type: " +:+ control_type) in
  if String.eqb control_type "volume" then
    if bool_decide (value = PyStr "up") then
      press_then "volumeup" "Volume increased"
    else if bool_decide (value = PyStr "down") then
      press_then "volumedown" "Volume decreased"
    else if bool_decide (value = PyStr "off") then
      press_then "volumemute" "Volume muted"
    else unknown
  else if String.eqb control_type "brightness" then
    if bool_decide (value = PyStr "up") then
      press_then "f2" "Brightness increased"
    else if bool_decide (value = PyStr "down") then
      press_then "f1" "Brightness decreased"
    else unknown
  else if existsb (String.eqb control_type) ["wifi"; "bluetooth"] then
    match popen d ["ms-settings:network"] with
    | Started =>
        ([Popen ["ms-settings:network"]],
         "Opened " +:+ control_type +:+ " settings")
    | NotFound e | LaunchError e =>
        ([Popen ["ms-settings:network"]], "Error with system control: " +:+ e)
    end
  else unknown.

Definition perform_interaction (action target : string)
  (parameters : gmap string pyval) : list desktop_call * string :=
  if String.eqb action "click" then
    if existsb (String.eqb (lower target)) ["ok"; "yes"; "no"; "cancel"] then
      match click d None with
      | None => ([ClickHere], "Clicked " +:+ target)
      | Some e => ([ClickHere], "Error with interaction: " +:+ e)
      end
    else
      let image := target +:+ ".png" in
      match locate_on_screen d image with
      | Located location =>
          match click d (Some location) with
          | None =>
              ([LocateOnScreen image; ClickAt location], "Clicked " +:+ target)
          | Some _ =>
              ([LocateOnScreen image; ClickAt location],
               "Could not click " +:+ target)
          end
      | NotOnScreen =>
          ([LocateOnScreen image], "Could not find " +:+ target +:+ " on screen")
      | LocateFailed => ([LocateOnScreen image], "Could not click " +:+ target)
      end
  else if String.eqb action "type" then
    match typewrite d target with
    | None => ([TypeWrite target], "Typed: " +:+ target)
    | Some e => ([TypeWrite target], "Error with interaction: " +:+ e)
    end
  else if String.eqb action "press" then
    match press d target with
    | None => ([PressKey target], "Pressed: " +:+ target)
    | Some e => ([PressKey target], "Error with interaction: " +:+ e)
    end
  else ([], "Unknown interaction: " +:+ action).

(** [execute_task] with the executors above. *)
Definition run_task (task : AutomationTask) : list signal :=
  execute_task h
    (fun target parameters => snd (open_application target parameters))
    (fun target parameters => snd (perform_web_search target parameters))
    (fun target parameters => snd (perform_system_control target parameters))
    (fun action target parameters =>
       snd (perform_interaction action target parameters))
    task.

(** [current_task] and [is_running] *)
Record engine_state := {
  current_task : option AutomationTask;
  is_running : bool
}.

(** [process_request(request)] with [background_mode] left at [False]: the
    signals emitted and the state when it returns.  [execute_task] clears
    the state in its [finally] block. *)
Definition process_request (st : engine_state) (request : string)
  : list signal * engine_state :=
  match parse_automation_request request false with
  | Some task =>
      (status_updated "Processing automation request..." :: run_task task,
       {| current_task := None; is_running := false |})
  | None =>
      ([ status_updated "Processing automation request...";
         error_occurred "Could not understand the automation request" ],
       st)
  end.

End Desktop.

(** A desktop on which every call succeeds and nothing is on screen. *)
Definition calm_desktop : desktop :=
  {| popen := fun _ => Started;
     webbrowser_open := fun _ => None;
     press := fun _ => None;
     click := fun _ => None;
     locate_on_screen := fun _ => NotOnScreen;
     typewrite := fun _ => None |}.

(** A desktop on which no program is found. *)
Definition bare_desktop : desktop :=
  {| popen := fun _ => NotFound "[WinError 2]";
     webbrowser_open := fun _ => None;
     press := fun _ => None;
     click := fun _ => None;
     locate_on_screen := fun _ => NotOnScreen;
     typewrite := fun _ => None |}.

(** A host on which no path exists. *)
Definition empty_host : host :=
  {| path_exists := fun _ => false;
     path_isdir := fun _ => false;
     path_basename := fun p => p;
     perform := fun _ => None |}.

(** The path an action of the file executor works on. *)
Definition os_action_path (a : os_action) : string :=
  match a with
  | StartFile p | MakeDirs p | CreateEmpty p | RmDir p | Remove p => p
  end.

(** The combinations of control and value that [perform_system_control]
    acts on. *)
Definition handled (control_type : string) (value : pyval) : bool :=
  (String.eqb control_type "volume"
   && (bool_decide (value = PyStr "up") || bool_decide (value = PyStr "down")
       || bool_decide (value = PyStr "off")))
  || (String.eqb control_type "brightness"
      && (bool_decide (value = PyStr "up") || bool_decide (value = PyStr "down")))
  || String.eqb control_type "wifi"
  || String.eqb control_type "bluetooth".

(** All the words that make [parse_automation_request] return a task. *)
Definition trigger_words : list string :=
  ["open"; "launch"; "start"; "search"; "google"; "find";
   "file"; "folder"; "document"; "volume"; "brightness"; "wifi"; "bluetooth";
   "click"; "type"; "press"].

End Executors.

(** The reply of [handle_automation_intent] at low confidence. *)
Module PipelineDefs.

Definition not_sure_reply : string :=
  "I'm not sure what automation you'd like me to perform. "
  +:+ "Could you be more specific about what you want me to do?".

(** A character other than the capital letters A to Z. *)
Definition not_A_to_Z (c : ascii) : bool := negb (PyStr.isupper c).

(** A character that is not whitespace. *)
Definition not_space (c : ascii) : bool := negb (PyStr.isspace c).

End PipelineDefs.

(** * Properties *)

(** ** The string primitives *)

Section StringFacts.
Import PyStr.

Example lower_mixed : PyStr.lower "Open CHROME_9" = "open chrome_9".
Proof. reflexivity. Qed.

Example split_ws : PyStr.split "  a  bc d " = ["a"; "bc"; "d"].
Proof. reflexivity. Qed.

Example strip_ws : PyStr.strip "  a b  " = "a b".
Proof. reflexivity. Qed.

Lemma append_cons c (a b : string) : String c a +:+ b = String c (a +:+ b).
Proof. reflexivity. Qed.

Lemma prefix_spec (a b : string) :
  String.prefix a b = true <-> exists post, b = a +:+ post.
Proof.
  revert b. induction a as [|c a IH]; intros b; simpl.
  - split; [intros _; exists b; reflexivity | intros _; destruct b; reflexivity].
  - destruct b as [|d b]; simpl.
    + split; [discriminate | intros [post H]; discriminate].
    + setoid_rewrite append_cons. destruct (ascii_dec c d) as [->|Hne].
      * rewrite IH. split; intros [post H]; exists post; congruence.
      * split; [discriminate | intros [post H]; congruence].
Qed.

(** [needle in hay] holds exactly when [hay] splits around [needle]. *)
Lemma contains_spec (needle hay : string) :
  contains needle hay = true
  <-> exists pre post, hay = pre +:+ needle +:+ post.
Proof.
  induction hay as [|c hay IH]; cbn [contains].
  - rewrite orb_false_r, prefix_spec. split.
    + intros [post H]. exists "", post. exact H.
    + intros [pre [post H]]. destruct pre; [|discriminate].
      exists post. exact H.
  - rewrite orb_true_iff, prefix_spec, IH. split.
    + intros [[post H]|[pre [post H]]].
      * exists "", post. exact H.
      * exists (String c pre), post. rewrite append_cons. congruence.
    + intros [pre [post H]]. destruct pre as [|d pre].
      * left. exists post. exact H.
      * right. exists pre, post. rewrite append_cons in H. congruence.
Qed.

Lemma contains_empty (hay : string) : contains "" hay = true.
Proof. destruct hay; reflexivity. Qed.

Lemma truthy_length (s : string) : truthy s = true <-> s <> "".
Proof. destruct s; simpl; split; congruence. Qed.
End StringFacts.

(** ** The matcher *)

Section MatcherFacts.
Import Re.
Context {A : Type}.

Lemma plus_more_inv (p : ascii -> bool) (k : string -> option A) s x :
  plus_more p k s = Some x -> exists rest, k rest = Some x.
Proof.
  induction s as [|c s IH]; simpl; intros H.
  - eauto.
  - destruct (p c); [|eauto].
    destruct (plus_more p k s) eqn:E; [|eauto].
    inversion H; subst. auto.
Qed.

(** A successful run of [exec] ends in a successful call of its
    continuation; a group that was set stays set, and a pattern that
    [always_captures] has set it by then. *)
Lemma exec_inv (r : regex) :
  forall (k : string -> option capture -> option A) s g x,
    exec r k s g = Some x ->
    exists rest g', k rest g' = Some x
      /\ (is_Some g -> is_Some g')
      /\ (always_captures r = true -> is_Some g').
Proof.
  induction r as [l|c|r1 IH1 r2 IH2|r1 IH1 r2 IH2|r1 IH1|r1 IH1];
    intros k s g x H; simpl in *.
  - destruct (String.prefix l s); [|discriminate].
    eexists _, g. repeat split; [exact H|auto|discriminate].
  - destruct s as [|a s]; [discriminate|].
    destruct (in_class c a); [|discriminate].
    apply plus_more_inv in H as [rest H].
    exists rest, g. repeat split; [exact H|auto|discriminate].
  - apply IH1 in H as (rest1 & g1 & H & Hk1 & Hc1).
    apply IH2 in H as (rest2 & g2 & H & Hk2 & Hc2).
    exists rest2, g2. repeat split; [exact H|auto|].
    intros [Hc|Hc]%orb_true_iff; auto.
  - destruct (exec r1 k s g) eqn:E.
    + inversion H; subst.
      apply IH1 in E as (rest & g' & E & Hk & Hc).
      exists rest, g'. repeat split; [exact E|auto|].
      intros [Hc1 _]%andb_true_iff; auto.
    + apply IH2 in H as (rest & g' & H & Hk & Hc).
      exists rest, g'. repeat split; [exact H|auto|].
      intros [_ Hc2]%andb_true_iff; auto.
  - destruct (exec r1 k s g) eqn:E.
    + inversion H; subst.
      apply IH1 in E as (rest & g' & E & Hk & Hc).
      exists rest, g'. repeat split; [exact E|auto|discriminate].
    + exists s, g. repeat split; [exact H|auto|discriminate].
  - apply IH1 in H as (rest & g' & H & _ & _).
    eexists rest, (Some _). repeat split; [exact H|eauto..].
Qed.
End MatcherFacts.

Section SearchFacts.
Import Re.

Lemma match_here_captures r n s m :
  always_captures r = true -> match_here r n s = Some m -> is_Some (group1 m).
Proof.
  unfold match_here. intros Hc H.
  destruct (exec r _ s None) as [[rest g]|] eqn:E; [|discriminate].
  inversion H; subst; simpl.
  apply exec_inv in E as (rest' & g' & E & _ & Hg).
  inversion E; subst. destruct (Hg Hc) as [c ->]. simpl. eauto.
Qed.

(** In a match of a pattern whose group lies on every path, group 1 took
    part: [match.group(1)] is a string. *)
Lemma captures_group r text m :
  always_captures r = true -> search r text = Some m -> is_Some (group1 m).
Proof.
  unfold search. generalize (String.length text) as n.
  induction text as [|c text IH]; intros n Hc; simpl.
  - destruct (match_here r n "") eqn:E; [|discriminate].
    intros H; inversion H; subst. eauto using match_here_captures.
  - destruct (match_here r n (String c text)) eqn:E.
    + intros H; inversion H; subst. eauto using match_here_captures.
    + eauto.
Qed.
End SearchFacts.

(** ** The intent classifier *)

Module ClassifierProps.
Import PyStr AIEngine ClassifierDefs.

Lemma keyword_hits_filter words text :
  keyword_hits words text
  = length (List.filter (fun word => contains word text) words).
Proof.
  induction words as [|w ws IH]; simpl; [reflexivity|].
  rewrite IH. destruct (contains w text); reflexivity.
Qed.

Lemma keyword_hits_le words text : keyword_hits words text <= length words.
Proof.
  induction words as [|w ws IH]; simpl; [lia|].
  destruct (contains w text); lia.
Qed.

Lemma keyword_hits_none words text :
  Forall (fun word => contains word text = false) words ->
  keyword_hits words text = 0.
Proof.
  induction 1 as [|w ws Hw _ IH]; simpl; [reflexivity|].
  rewrite Hw, IH. reflexivity.
Qed.

Lemma keyword_hits_bucket name message :
  keyword_hits (bucket name) (lower message) = hits name message.
Proof. apply keyword_hits_filter. Qed.

(** The three outcomes of the [max] over the scores. *)
Lemma max_by_score_cases (a n w : nat) :
  let r := max_by_score ("automation", a) [("information", n); ("workflow", w)] in
  (r = ("automation", a) /\ n <= a /\ w <= a)
  \/ (r = ("information", n) /\ a < n /\ w <= n)
  \/ (r = ("workflow", w) /\ a < w /\ n < w).
Proof.
  simpl.
  destruct (Nat.ltb_spec a n); simpl;
    [destruct (Nat.ltb_spec n w) | destruct (Nat.ltb_spec a w)];
    intuition lia.
Qed.

Lemma parse_intent_winner message :
  (task_type (parse_intent message),
   Z.to_nat (Qnum (confidence (parse_intent message))))
  = max_by_score ("automation", hits "automation" message)
      [("information", hits "information" message);
       ("workflow", hits "workflow" message)]
  /\ Qden (confidence (parse_intent message))
     = Pos.of_nat (Nat.max (length (split message)) 1).
Proof.
  unfold parse_intent. rewrite !keyword_hits_bucket.
  destruct (max_by_score _ _) as [winner score].
  destruct (extract_action_target message) as [[act tgt] params]. simpl.
  rewrite Nat2Z.id. split; reflexivity.
Qed.

Lemma confidence_eq message (k : nat) :
  Z.to_nat (Qnum (confidence (parse_intent message))) = k ->
  confidence (parse_intent message)
  = Z.of_nat k # Pos.of_nat (Nat.max (length (split message)) 1).
Proof.
  intros <-. pose proof (parse_intent_winner message) as [_ Hden].
  destruct (confidence (parse_intent message)) as [num den] eqn:E.
  simpl in *. subst den. f_equal.
  assert (0 <= num)%Z; [|lia].
  revert E. unfold parse_intent.
  destruct (max_by_score _ _) as [winner score].
  destruct (extract_action_target message) as [[act tgt] params]. simpl.
  intros [= <-]. lia.
Qed.

(** The winner of the three counts and the confidence derived from it. *)
Lemma parse_intent_outcome (message : string) :
  let i := parse_intent message in
  let a := hits "automation" message in
  let n := hits "information" message in
  let w := hits "workflow" message in
  ((task_type i = "automation" /\ n <= a /\ w <= a)
   \/ (task_type i = "information" /\ a < n /\ w <= n)
   \/ (task_type i = "workflow" /\ a < w /\ n < w))
  /\ confidence i
     = (Z.of_nat (hits (task_type i) message)
        # Pos.of_nat (Nat.max (length (split message)) 1))
  /\ (0 <= confidence i)%Q.
Proof.
  intros i a n w.
  pose proof (parse_intent_winner message) as [Hmax _].
  pose proof (max_by_score_cases a n w) as Hcases. simpl in Hcases.
  fold a n w in Hmax. simpl in Hmax.
  assert (Hc : confidence i
               = (Z.of_nat (hits (task_type i) message)
                  # Pos.of_nat (Nat.max (length (split message)) 1))).
  { apply confidence_eq.
    destruct Hcases as [[Hr _]|[[Hr _]|[Hr _]]];
      rewrite Hr in Hmax; injection Hmax as Ht Hn; fold i in Ht;
      rewrite Ht; exact Hn. }
  split; [|split; [exact Hc|]].
  - destruct Hcases as [[Hr ?]|[[Hr ?]|[Hr ?]]];
      rewrite Hr in Hmax; injection Hmax as Ht _; fold i in Ht; auto.
  - rewrite Hc. unfold Qle. simpl. lia.
Qed.

(** C2. For every message, [parse_intent] (a total function) yields a
    category among automation, information and workflow: the bucket with
    the most keywords occurring in the lower-cased message, the earlier
    bucket winning a tie; and the confidence is the winning count divided
    by the number of words of the message, or by 1 if there is none, which
    is never negative. *)
Theorem classify_category_and_confidence (message : string) :
  let i := parse_intent message in
  let a := hits "automation" message in
  let n := hits "information" message in
  let w := hits "workflow" message in
  ((task_type i = "automation" /\ n <= a /\ w <= a)
   \/ (task_type i = "information" /\ a < n /\ w <= n)
   \/ (task_type i = "workflow" /\ a < w /\ n < w))
  /\ confidence i
     = (Z.of_nat (hits (task_type i) message)
        # Pos.of_nat (Nat.max (length (split message)) 1))
  /\ (0 <= confidence i)%Q.
Proof. exact (parse_intent_outcome message). Qed.

Example classify_tie : task_type (parse_intent "search") = "automation".
Proof. vm_compute. reflexivity. Qed.

Lemma hits_le_12 name message : hits name message <= 12.
Proof.
  unfold hits. rewrite <- keyword_hits_filter.
  etransitivity; [apply keyword_hits_le|].
  unfold bucket, intents. cbn [List.find fst].
  repeat (destruct (String.eqb _ name); [cbn; lia|]). cbn. lia.
Qed.

(** C3, as stated, fails: the one-word message [openclose] contains two
    automation keywords, so its confidence is 2. *)
Lemma confidence_exceeds_one :
  ~ (0 <= confidence (parse_intent "openclose")
     /\ confidence (parse_intent "openclose") <= 1)%Q.
Proof. intros [_ H]. vm_compute in H. apply H. reflexivity. Qed.

(** C3, amended. For every message the confidence is at least 0 and at
    most 12, the size of the largest bucket; it is at most 1 whenever the
    winning count does not exceed the number of words of the message. *)
Theorem confidence_bounds (message : string) :
  let i := parse_intent message in
  (0 <= confidence i)%Q
  /\ (confidence i <= 12)%Q
  /\ (hits (task_type i) message <= length (split message) ->
      (confidence i <= 1)%Q).
Proof.
  intros i.
  destruct (parse_intent_outcome message) as (_ & Hc & Hpos).
  fold i in Hc, Hpos. split; [exact Hpos|].
  pose proof (hits_le_12 (task_type i) message) as H12.
  rewrite Hc. unfold Qle. simpl. split; [lia|intros Hle; lia].
Qed.

Lemma confidence_bounds_witness :
  hits (task_type (parse_intent "open the file")) "open the file"
  <= length (split "open the file")
  /\ (confidence (parse_intent "open the file") <= 1)%Q.
Proof.
  assert (H : hits (task_type (parse_intent "open the file")) "open the file"
              <= length (split "open the file")).
  { vm_compute. lia. }
  split; [exact H|].
  exact (proj2 (proj2 (confidence_bounds "open the file")) H).
Defined.

(** C9. When no keyword of any bucket occurs in the message, the category
    is automation and the confidence is 0; the category is never chat, so
    [process_message] never takes its final [else] branch. *)
Theorem classify_no_keyword_and_never_chat (message : string) :
  let i := parse_intent message in
  (no_keyword message -> task_type i = "automation" /\ (confidence i == 0)%Q)
  /\ task_type i <> "chat"
  /\ select_branch (task_type i) <> ChatBranch.
Proof.
  intros i.
  destruct (parse_intent_outcome message) as (Hcat & Hc & _).
  fold i in Hcat, Hc. split; [|split].
  - intros Hno.
    assert (Hz : forall name, hits name message = 0).
    { intros name. unfold hits. rewrite <- keyword_hits_filter.
      apply keyword_hits_none. unfold bucket.
      destruct (List.find _ intents) as [[k ws]|] eqn:E; simpl; [|constructor].
      apply find_some in E as [Hin _].
      unfold no_keyword in Hno. rewrite List.Forall_forall in Hno.
      exact (Hno _ Hin). }
    split.
    + destruct Hcat as [[Ht _]|[[_ [Hlt _]]|[_ [Hlt _]]]]; [exact Ht|..];
        rewrite !Hz in Hlt; lia.
    + rewrite Hc, Hz. reflexivity.
  - destruct Hcat as [[-> _]|[[-> _]|[-> _]]]; discriminate.
  - destruct Hcat as [[-> _]|[[-> _]|[-> _]]]; discriminate.
Qed.

Lemma classify_no_keyword_witness :
  no_keyword ""
  /\ task_type (parse_intent "") = "automation"
  /\ (confidence (parse_intent "") == 0)%Q.
Proof.
  assert (H : no_keyword "").
  { unfold no_keyword, intents. repeat constructor. }
  split; [exact H|].
  exact (proj1 (classify_no_keyword_and_never_chat "") H).
Defined.

End ClassifierProps.

(** ** The task parser of the AI engine *)

Module ParserProps.
Import PyStr Re AIEngine ParserDefs.

Lemma first_pattern_none t ps text :
  first_pattern ps text = None ->
  Forall (fun tp : template * regex => search (snd tp) text = None)
    (List.map (fun p => (t, p)) ps).
Proof.
  induction ps as [|p ps IH]; simpl; [constructor|].
  destruct (search p text) eqn:E; [discriminate|].
  intros H. constructor; [exact E|auto].
Qed.

Lemma first_template_none ts text :
  first_template ts text = None ->
  Forall (fun tp : template * regex => search (snd tp) text = None) (rules_of ts).
Proof.
  induction ts as [|[name t] ts IH]; simpl; [constructor|].
  destruct (first_pattern (patterns t) text) as [[p m]|] eqn:E; [discriminate|].
  intros H. apply Forall_app. split; [eauto using first_pattern_none|auto].
Qed.

Lemma none_first_pattern t ps text :
  Forall (fun tp : template * regex => search (snd tp) text = None)
    (List.map (fun p => (t, p)) ps) ->
  first_pattern ps text = None.
Proof.
  induction ps as [|p ps IH]; simpl; [reflexivity|].
  intros H. apply Forall_cons in H as [Hp H]. simpl in Hp.
  rewrite Hp. auto.
Qed.

Lemma none_first_template ts text :
  Forall (fun tp : template * regex => search (snd tp) text = None) (rules_of ts) ->
  first_template ts text = None.
Proof.
  induction ts as [|[name t] ts IH]; simpl; [reflexivity|].
  intros [H1 H2]%Forall_app.
  rewrite (none_first_pattern _ _ _ H1). auto.
Qed.

Lemma first_pattern_at t ps text i p m :
  first_match_at (List.map (fun p => (t, p)) ps) text i t p m ->
  first_pattern ps text = Some (p, m).
Proof.
  revert i. induction ps as [|q ps IH]; intros i (Hi & Hm & Hbefore).
  - destruct i; discriminate.
  - simpl. destruct i as [|i].
    + injection Hi as ->. rewrite Hm. reflexivity.
    + rewrite (Hbefore 0 t q); [|lia|reflexivity].
      apply (IH i). repeat split; [exact Hi|exact Hm|].
      intros j t' p' Hj Hl. apply (Hbefore (S j) t' p'); [lia|exact Hl].
Qed.

Lemma first_template_at ts text i t p m :
  first_match_at (rules_of ts) text i t p m ->
  first_template ts text = Some (t, p, m).
Proof.
  revert i. induction ts as [|[name t0] ts IH]; intros i (Hi & Hm & Hbefore).
  - destruct i; discriminate.
  - simpl in *.
    set (here := List.map (fun p => (t0, p)) (patterns t0)) in *.
    destruct (decide (i < length here)) as [Hlt|Hge].
    + rewrite lookup_app_l in Hi by exact Hlt.
      assert (t = t0) as ->.
      { apply list_elem_of_lookup_2, list_elem_of_In, in_map_iff in Hi
          as (q & [= <- _] & _). reflexivity. }
      rewrite (first_pattern_at t0 (patterns t0) text i p m); [reflexivity|].
      repeat split; [exact Hi|exact Hm|].
      intros j t' p' Hj Hl. apply (Hbefore j t' p' Hj).
      rewrite lookup_app_l by lia. exact Hl.
    + rewrite lookup_app_r in Hi by lia.
      rewrite (none_first_pattern t0).
      * apply (IH (i - length here)). repeat split; [exact Hi|exact Hm|].
        intros j t' p' Hj Hl. apply (Hbefore (length here + j) t' p'); [lia|].
        rewrite lookup_app_r by lia.
        replace (length here + j - length here) with j by lia. exact Hl.
      * apply List.Forall_forall. intros [t' p'] Hin.
        apply list_elem_of_In, list_elem_of_lookup_1 in Hin as [j Hj].
        simpl. apply (Hbefore j t' p').
        -- apply lookup_lt_Some in Hj. fold here in Hj. lia.
        -- rewrite lookup_app_l; [exact Hj|].
           apply lookup_lt_Some in Hj. exact Hj.
Qed.

(** Every pattern of the tables that has a group sets it in any match. *)
Lemma rules_capture :
  Forall (fun tp : template * regex =>
            (0 <? groups (snd tp))%nat = always_captures (snd tp)) rules.
Proof. repeat constructor. Qed.

(** The target of a matched rule is the text of group 1, or the empty
    string for a pattern without a group. *)
Lemma target_is_group t p text m :
  In (t, p) rules -> search p text = Some m ->
  (groups p = 0 /\ group1_or_empty p m = "")
  \/ group1 m = Some (group1_or_empty p m).
Proof.
  intros Hin Hm. pose proof rules_capture as Hc.
  rewrite List.Forall_forall in Hc. specialize (Hc _ Hin). simpl in Hc.
  unfold group1_or_empty. destruct (0 <? groups p)%nat eqn:Hg.
  - right. symmetry in Hc.
    destruct (captures_group p text m Hc Hm) as [g ->]. reflexivity.
  - left. apply Nat.ltb_ge in Hg. split; [lia|reflexivity].
Qed.

(** C4. The templates are tried in the declared order and, within a
    template, the patterns in their order; the first pattern that matches
    the lower-cased message decides the action and the target.  For
    [open chrome], which both an [open_application] pattern and the
    catch-all [file_operation] pattern match, the result is [open_app]
    with target [chrome] and parameter [app_name = chrome]. *)
Theorem template_order_first_match :
  List.map fst task_templates
    = ["open_application"; "web_search"; "file_operation"; "system_control"]
  /\ (forall message i t p m,
         first_match_at rules (lower message) i t p m ->
         extract_action_target message
         = (t_action t, group1_or_empty p m, extract_parameters message t))
  /\ (forall message p,
         In p (patterns open_application) ->
         is_Some (search p (lower message)) ->
         fst (fst (extract_action_target message)) = "open_app")
  /\ (is_Some (search (cat [RLit "open"; ws; word_group]) (lower "open chrome"))
      /\ is_Some (search (cat [alt ["open"; "create"; "save"; "delete"]; ws;
                               rest_group]) (lower "open chrome"))
      /\ extract_action_target "open chrome"
         = ("open_app", "chrome", {[ "app_name" := PyStr "chrome" ]})
      /\ exists task,
           AutomationEngine.parse_automation_request "open chrome" false
           = Some task
           /\ AutomationEngine.action task = "open_app"
           /\ AutomationEngine.target task = "chrome"
           /\ AutomationEngine.parameters task !! "app_name"
              = Some (PyStr "chrome")).
Proof.
  split; [reflexivity|split; [|split]].
  - intros message i t p m H. unfold extract_action_target.
    rewrite (first_template_at task_templates _ i t p m H). reflexivity.
  - intros message p Hin [m Hm]. unfold extract_action_target, task_templates.
    cbn [first_template].
    destruct (first_pattern (patterns open_application) (lower message))
      as [[p' m']|] eqn:E; [reflexivity|].
    apply (first_pattern_none open_application) in E.
    rewrite List.Forall_forall in E.
    specialize (E (open_application, p) (in_map _ _ _ Hin)).
    simpl in E. congruence.
  - split; [vm_compute; eauto|]. split; [vm_compute; eauto|].
    split; [vm_compute; reflexivity|].
    eexists. split; [reflexivity|]. repeat split; vm_compute; reflexivity.
Qed.

(** [delete report] is matched first by the eighth rule, the catch-all
    pattern of [file_operation]. *)
Lemma template_order_witness :
  exists t p m,
    first_match_at rules (lower "delete report") 7 t p m
    /\ extract_action_target "delete report"
       = (t_action t, group1_or_empty p m, extract_parameters "delete report" t).
Proof.
  eexists _, _, _.
  assert (H : first_match_at rules (lower "delete report") 7
                file_operation
                (cat [alt ["open"; "create"; "save"; "delete"]; ws; rest_group])
                {| group0 := "delete report"; start0 := 0;
                   group1 := Some "report"; start1 := Some 7 |}).
  { repeat split.
    intros j t' p' Hj Hl.
    do 7 (destruct j as [|j]; [injection Hl as <- <-; vm_compute; reflexivity|]).
    lia. }
  split; [exact H|].
  exact (proj1 (proj2 template_order_first_match) "delete report" 7 _ _ _ H).
Defined.

(** C6, as stated, fails at its own example: [asdkjasd] matches no
    template and is a single word, so the action is [unknown], not
    [asdkjasd].  The parser of the automation engine returns no task for
    it. *)
Lemma single_word_is_unknown :
  no_rule_matches (lower "asdkjasd")
  /\ extract_action_target "asdkjasd" = ("unknown", "asdkjasd", ∅)
  /\ fst (fst (extract_action_target "asdkjasd")) <> "asdkjasd"
  /\ AutomationEngine.parse_automation_request "asdkjasd" false = None.
Proof.
  split; [repeat constructor|]. split; [vm_compute; reflexivity|].
  split; [vm_compute; discriminate|vm_compute; reflexivity].
Qed.

(** C6, amended. When no template pattern matches, the result comes from
    the words of the lower-cased message: with two or more words the action
    is the first of them and the target the others joined by single
    spaces; otherwise the action is [unknown] and the target is the message
    as it was given; the parameters are empty in both cases.  So
    [asdkjasd] gives action [unknown] and target [asdkjasd]. *)
Theorem positional_fallback :
  (forall message,
      no_rule_matches (lower message) ->
      let words := split (lower message) in
      (2 <= length words ->
       extract_action_target message
       = (List.hd "" words, join " " (List.tl words), ∅))
      /\ (length words < 2 ->
          extract_action_target message = ("unknown", message, ∅)))
  /\ extract_action_target "asdkjasd" = ("unknown", "asdkjasd", ∅)
  /\ extract_action_target "Asdkjasd Foo  BAR" = ("asdkjasd", "foo bar", ∅).
Proof.
  split; [|split; vm_compute; reflexivity].
  intros message Hno words. unfold extract_action_target.
  rewrite (none_first_template task_templates _ Hno). fold words.
  destruct words as [|w [|w' ws]]; simpl; split; intros; try lia; reflexivity.
Qed.

Lemma positional_fallback_witness :
  no_rule_matches (lower "Play some MUSIC")
  /\ 2 <= length (split (lower "Play some MUSIC"))
  /\ extract_action_target "Play some MUSIC" = ("play", "some music", ∅).
Proof.
  assert (H : no_rule_matches (lower "Play some MUSIC")) by repeat constructor.
  assert (H2 : 2 <= length (split (lower "Play some MUSIC"))) by (vm_compute; lia).
  split; [exact H|]. split; [exact H2|].
  exact (proj1 (proj1 positional_fallback "Play some MUSIC" H) H2).
Defined.

(** *** Parameter extraction *)

Lemma extract_one_lookup name re message t (ps : gmap string pyval) k :
  extract_one name re message t ps !! k
  = if decide (name = k) then
      if mem name (t_parameters t) then
        match search re (lower message) with
        | Some m => Some (pyval_of_group (group1 m))
        | None => ps !! k
        end
      else ps !! k
    else ps !! k.
Proof.
  unfold extract_one.
  destruct (mem name (t_parameters t)); [|case_decide; reflexivity].
  destruct (search re (lower message)); [|case_decide; reflexivity].
  apply lookup_insert.
Qed.

(** What [extract_parameters] stores under each of its three names. *)
Lemma extract_parameters_lookup message t name re :
  In (name, re) param_regexes ->
  extract_parameters message t !! name
  = if mem name (t_parameters t) then
      (fun m => pyval_of_group (group1 m)) <$> search re (lower message)
    else None.
Proof.
  unfold extract_parameters.
  intros [[= <- <-]|[[= <- <-]|[[= <- <-]|[]]]];
    rewrite !extract_one_lookup;
    repeat (case_decide; try congruence);
    repeat (destruct (mem _ (t_parameters t)); try reflexivity);
    repeat (destruct (search _ (lower message)); try reflexivity).
Qed.

Lemma extract_one_dom name re message t (ps : gmap string pyval) :
  dom (extract_one name re message t ps) ⊆ {[ name ]} ∪ dom ps.
Proof.
  unfold extract_one.
  destruct (mem name (t_parameters t)); [|set_solver].
  destruct (search re (lower message)); [|set_solver].
  rewrite dom_insert. set_solver.
Qed.

Lemma extract_parameters_dom message t :
  dom (extract_parameters message t)
  ⊆ ({[ "app_name"; "query"; "file_path" ]} : gset string).
Proof.
  unfold extract_parameters.
  pose proof (extract_one_dom "file_path" file_path_re message t
                (extract_one "query" query_re message t
                   (extract_one "app_name" app_name_re message t ∅))) as Hfile.
  pose proof (extract_one_dom "query" query_re message t
                (extract_one "app_name" app_name_re message t ∅)) as Hquery.
  pose proof (extract_one_dom "app_name" app_name_re message t ∅) as Happ.
  revert Hfile Hquery Happ.
  generalize (extract_one "app_name" app_name_re message t ∅) as m1.
  intros m1. generalize (extract_one "query" query_re message t m1) as m2.
  intros m2 Hfile Hquery Happ.
  etransitivity; [exact Hfile|].
  apply union_least; [set_solver|].
  etransitivity; [exact Hquery|].
  apply union_least; [set_solver|].
  etransitivity; [exact Happ|]. rewrite dom_empty_L.
  apply union_least; [|apply empty_subseteq].
  intros x Hx. apply elem_of_singleton in Hx as ->.
  apply elem_of_union_l, elem_of_union_l, elem_of_singleton. reflexivity.
Qed.

Lemma extract_action_target_dom message :
  dom (snd (extract_action_target message))
  ⊆ ({[ "app_name"; "query"; "file_path" ]} : gset string).
Proof.
  unfold extract_action_target.
  destruct (first_template _ _) as [[[t p] m]|]; simpl.
  - apply extract_parameters_dom.
  - destruct (split (lower message)) as [|w [|w' ws]]; simpl; set_solver.
Qed.

(** C5, as stated, fails.  The parameter regexes run on the lower-cased
    message: for [open Chrome] the parameter [app_name] is [chrome], where
    the original text would give [Chrome].  And the two captures can lie at
    different places without the values diverging: for [launch a open a]
    the template pattern captures at position 14 and the parameter regex
    at position 7, both the text [a]. *)
Lemma parameters_from_lowercased_text :
  (first_template task_templates (lower "open Chrome")
   = Some (open_application, cat [RLit "open"; ws; word_group],
           {| group0 := "open chrome"; start0 := 0;
              group1 := Some "chrome"; start1 := Some 5 |})
   /\ snd (extract_action_target "open Chrome") !! "app_name"
      = Some (PyStr "chrome")
   /\ extract_parameters_original "open Chrome" open_application !! "app_name"
      = Some (PyStr "Chrome")
   /\ snd (extract_action_target "open Chrome")
      <> extract_parameters_original "open Chrome" open_application)
  /\ (span1 <$> search (cat [RLit "open"; ws; word_group]) (lower "launch a open a")
      = Some (Some (14, 15))
      /\ span1 <$> search app_name_re (lower "launch a open a")
         = Some (Some (7, 8))
      /\ extract_action_target "launch a open a"
         = ("open_app", "a", {[ "app_name" := PyStr "a" ]})).
Proof.
  split.
  - split; [vm_compute; reflexivity|].
    split; [vm_compute; reflexivity|].
    split; [vm_compute; reflexivity|].
    intros H.
    assert (H' : snd (extract_action_target "open Chrome") !! "app_name"
                 = extract_parameters_original "open Chrome" open_application
                     !! "app_name") by (rewrite H; reflexivity).
    vm_compute in H'. discriminate.
  - repeat split; vm_compute; reflexivity.
Qed.

Example second_pass_diverges :
  extract_action_target "Find a Search b"
  = ("web_search", "b", {[ "query" := PyStr "a search b" ]}).
Proof. vm_compute. reflexivity. Qed.

Lemma first_template_in ts text t p m :
  first_template ts text = Some (t, p, m) -> In t (List.map snd ts).
Proof.
  induction ts as [|[name t0] ts IH]; simpl; [discriminate|].
  destruct (first_pattern (patterns t0) text) as [[p0 m0]|].
  - intros [= <- _ _]. left. reflexivity.
  - intros H. right. exact (IH H).
Qed.

(** The action of an intent: a template's tag, [unknown], or the first
    word of a message that no template matches. *)
Lemma extract_action_target_action message :
  let act := fst (fst (extract_action_target message)) in
  In act ["open_app"; "web_search"; "file_operation"; "system_control"; "unknown"]
  \/ (no_rule_matches (lower message)
      /\ exists rest, rest <> [] /\ split (lower message) = act :: rest).
Proof.
  unfold extract_action_target.
  destruct (first_template _ _) as [[[t p] m]|] eqn:E; simpl.
  - left. apply first_template_in in E. simpl in E.
    destruct E as [<-|[<-|[<-|[<-|[]]]]]; simpl; auto 6.
  - apply first_template_none in E.
    destruct (split (lower message)) as [|w [|w' ws]]; simpl;
      [left; auto 6|left; auto 6|].
    right. split; [exact E|]. exists (w' :: ws). split; [discriminate|reflexivity].
Qed.

Lemma parse_intent_action message :
  AIEngine.action (parse_intent message)
  = fst (fst (extract_action_target message)).
Proof.
  unfold parse_intent.
  destruct (max_by_score _ _) as [winner score].
  destruct (extract_action_target message) as [[act tgt] params]. reflexivity.
Qed.

End ParserProps.

(** ** The executor dispatch *)

Module DispatchProps.
Import PyStr Re.
Import AutomationEngine DispatchDefs.

Lemma parse_open_app_action request bg :
  action (parse_open_app_request request bg) = "open_app".
Proof. unfold parse_open_app_request. repeat case_match; reflexivity. Qed.

Lemma parse_interaction_action request bg :
  In (action (parse_interaction_request request bg)) ["click"; "type"; "press"].
Proof.
  unfold parse_interaction_request. simpl.
  repeat case_match; simpl; auto.
Qed.

Lemma parse_automation_request_action request bg task :
  parse_automation_request request bg = Some task ->
  In (action task) known_actions.
Proof.
  unfold parse_automation_request, known_actions.
  repeat (case (any_in _ _)); intros [= <-]; try discriminate.
  - rewrite parse_open_app_action. simpl. auto.
  - simpl. auto.
  - simpl. auto.
  - simpl. auto.
  - pose proof (parse_interaction_action request bg) as H. simpl in *.
    intuition auto.
Qed.

Lemma perform_file_operation_default h file_path (params : gmap string pyval) :
  params !! "operation" = None ->
  perform_file_operation h file_path params = open_file h file_path.
Proof.
  intros H. unfold perform_file_operation, open_file. rewrite H. reflexivity.
Qed.

Section Dispatch.
Variable h : host.
Variable open_application : string -> gmap string pyval -> string.
Variable perform_web_search : string -> gmap string pyval -> string.
Variable perform_system_control : string -> gmap string pyval -> string.
Variable perform_interaction : string -> string -> gmap string pyval -> string.

Let run := execute_task h open_application perform_web_search
             perform_system_control perform_interaction.

Lemma execute_unknown task :
  ~ In (action task) known_actions ->
  run task
  = [ status_updated ("Executing: " +:+ action task +:+ " " +:+ target task);
      task_completed ("Unknown action: " +:+ action task);
      status_updated "Task completed" ].
Proof.
  intros Hn. unfold run, execute_task.
  assert (Hne : forall a, In a known_actions -> String.eqb (action task) a = false).
  { intros a Ha. apply String.eqb_neq. intros Heq. apply Hn. rewrite Heq. exact Ha. }
  rewrite !Hne by (simpl; auto 10).
  cbn [existsb]. rewrite !Hne by (simpl; auto 10). reflexivity.
Qed.

Lemma execute_file_operation tgt params bg :
  run {| action := "file_operation"; target := tgt;
         parameters := params; background_mode := bg |}
  = [ status_updated ("Executing: file_operation " +:+ tgt);
      task_completed (snd (perform_file_operation h tgt params));
      status_updated "Task completed" ].
Proof. reflexivity. Qed.
End Dispatch.

(** C7, as stated, fails: for [asdkjasd foo] no template matches and the
    action of the intent is the word [asdkjasd], which is neither a known
    action nor [unknown]. *)
Lemma intent_action_outside_known :
  ~ In (AIEngine.action (AIEngine.parse_intent "asdkjasd foo"))
       (known_actions ++ ["unknown"]).
Proof. vm_compute. intuition discriminate. Qed.

(** C7, amended. The action of an intent is a template's tag, [unknown],
    or, when no template matches a message of two or more words, the first
    word of the lower-cased message, whatever it is.  A task parsed by the
    automation engine always has a known action.  Given a task whose
    action it does not know, [execute_task] raises nothing: it reports
    [Unknown action: ] followed by the action as the result of the task. *)
Theorem action_tags_and_unknown_action :
  (forall message,
      let act := AIEngine.action (AIEngine.parse_intent message) in
      In act ["open_app"; "web_search"; "file_operation"; "system_control";
              "unknown"]
      \/ (ParserDefs.no_rule_matches (lower message)
          /\ exists rest, rest <> [] /\ split (lower message) = act :: rest))
  /\ (forall request bg task,
         parse_automation_request request bg = Some task ->
         In (action task) known_actions)
  /\ (forall h open_application perform_web_search perform_system_control
             perform_interaction task,
         ~ In (action task) known_actions ->
         execute_task h open_application perform_web_search
           perform_system_control perform_interaction task
         = [ status_updated
               ("Executing: " +:+ action task +:+ " " +:+ target task);
             task_completed ("Unknown action: " +:+ action task);
             status_updated "Task completed" ]).
Proof.
  split; [|split].
  - intros message. simpl. rewrite ParserProps.parse_intent_action.
    apply ParserProps.extract_action_target_action.
  - apply parse_automation_request_action.
  - intros. apply execute_unknown. assumption.
Qed.

Lemma action_tags_witness :
  (exists task,
      parse_automation_request "please press enter" false = Some task
      /\ In (action task) known_actions)
  /\ execute_task easy_host (fun _ _ => "") (fun _ _ => "") (fun _ _ => "")
       (fun _ _ _ => "")
       {| action := "asdkjasd"; target := "foo"; parameters := ∅;
          background_mode := false |}
     = [ status_updated "Executing: asdkjasd foo";
         task_completed "Unknown action: asdkjasd";
         status_updated "Task completed" ].
Proof.
  split.
  - eexists.
    assert (H : parse_automation_request "please press enter" false
                = Some (parse_interaction_request "please press enter" false))
      by (vm_compute; reflexivity).
    split; [exact H|].
    exact (proj1 (proj2 action_tags_and_unknown_action) _ _ _ H).
  - apply (proj2 (proj2 action_tags_and_unknown_action)).
    vm_compute. intuition discriminate.
Defined.

End DispatchProps.

(** ** The response backend chain *)

Module ChainProps.
Import PyStr AIEngine ChainDefs.

Lemma generate_local_response_in message :
  In (generate_local_response message) local_replies.
Proof.
  unfold generate_local_response, local_replies.
  repeat (case (any_in _ _); [simpl; auto 6|]). simpl. auto 6.
Qed.

Lemma generate_local_response_nonempty message :
  generate_local_response message <> "".
Proof.
  pose proof (generate_local_response_in message) as H.
  intros Heq. rewrite Heq in H.
  vm_compute in H. intuition discriminate.
Qed.

(** C1, as stated, fails: with both remote backends configured, a fault of
    Gemini is answered by the local responder; OpenAI, which would have
    replied, is not attempted. *)
Lemma gemini_fault_skips_openai :
  let gemini := fun _ : string => @None string in
  let openai := fun _ : string => Some "pong" in
  gemini_configured both_configured = true
  /\ openai_configured both_configured = true
  /\ generate_chat_response gemini openai both_configured "ping"
     = ([Gemini; Local], local_generic)
  /\ chain_by_tiers gemini openai both_configured "ping"
     = ([Gemini; OpenAI], "pong")
  /\ ~ In OpenAI (fst (generate_chat_response gemini openai both_configured "ping"))
  /\ generate_chat_response gemini openai both_configured "ping"
     <> chain_by_tiers gemini openai both_configured "ping".
Proof.
  repeat split; try (vm_compute; reflexivity).
  - vm_compute. intuition discriminate.
  - vm_compute. discriminate.
Qed.

(** C1, amended. One remote backend is selected: Gemini if it is
    configured, otherwise OpenAI if it is configured; its reply, when it
    succeeds, is the response and nothing else is attempted.  Any fault of
    the selected remote backend falls through to the local keyword
    responder; in particular a fault of a configured Gemini is answered by
    the local responder, also when OpenAI is configured.  With no remote
    backend configured the local responder answers. *)
Theorem chain_selects_one_remote
  (gemini_generate_content openai_chat_completion : string -> option string)
  (e : engine) (message : string) :
  let respond :=
    generate_chat_response gemini_generate_content openai_chat_completion e in
  let local := generate_local_response message in
  (gemini_configured e = true ->
   (forall text, gemini_generate_content (gemini_prompt message) = Some text ->
                 respond message = ([Gemini], strip text))
   /\ (gemini_generate_content (gemini_prompt message) = None ->
       respond message = ([Gemini; Local], local)))
  /\ (gemini_configured e = false -> openai_configured e = true ->
      (forall content, openai_chat_completion message = Some content ->
                       respond message = ([OpenAI], strip content))
      /\ (openai_chat_completion message = None ->
          respond message = ([OpenAI; Local], local)))
  /\ (gemini_configured e = false -> openai_configured e = false ->
      respond message = ([Local], local))
  /\ (In OpenAI (fst (respond message)) -> gemini_configured e = false).
Proof.
  intros respond local. unfold respond, generate_chat_response,
    generate_gemini_response, generate_openai_response.
  split; [|split; [|split]].
  - intros Hg. rewrite Hg. split.
    + intros text Ht. rewrite Ht. reflexivity.
    + intros Ht. rewrite Ht. reflexivity.
  - intros Hg Ho. rewrite Hg, Ho. split.
    + intros content Hc. rewrite Hc. reflexivity.
    + intros Hc. rewrite Hc. reflexivity.
  - intros Hg Ho. rewrite Hg, Ho. reflexivity.
  - destruct (gemini_configured e); [|reflexivity].
    destruct (gemini_generate_content _); simpl; intuition discriminate.
Qed.

Lemma chain_selects_one_remote_witness :
  gemini_configured both_configured = true
  /\ generate_chat_response (fun _ => None) (fun _ => Some "pong")
       both_configured "hello there"
     = ([Gemini; Local], local_greeting).
Proof.
  assert (H : gemini_configured both_configured = true) by reflexivity.
  split; [exact H|].
  exact (proj2 (proj1 (chain_selects_one_remote (fun _ => None)
                         (fun _ => Some "pong") both_configured "hello there")
                  H) eq_refl).
Defined.

(** C8. When each remote backend is unconfigured or faults, the response
    is the reply of the local keyword responder, which is a total function
    and never the empty string; this holds for every message, the empty
    one included. *)
Theorem local_fallback_nonempty
  (gemini_generate_content openai_chat_completion : string -> option string)
  (e : engine) (message : string) :
  gemini_configured e = false
    \/ gemini_generate_content (gemini_prompt message) = None ->
  openai_configured e = false \/ openai_chat_completion message = None ->
  let r :=
    generate_chat_response gemini_generate_content openai_chat_completion e
      message in
  last (fst r) = Some Local
  /\ snd r = generate_local_response message
  /\ In (snd r) local_replies
  /\ snd r <> "".
Proof.
  intros Hg Ho r.
  assert (Hr : last (fst r) = Some Local
               /\ snd r = generate_local_response message).
  { unfold r, generate_chat_response, generate_gemini_response,
      generate_openai_response.
    destruct (gemini_configured e).
    - destruct Hg as [Hg|Hg]; [discriminate|]. rewrite Hg. split; reflexivity.
    - destruct (openai_configured e).
      + destruct Ho as [Ho|Ho]; [discriminate|]. rewrite Ho. split; reflexivity.
      + split; reflexivity. }
  destruct Hr as [Hl Hs]. rewrite Hs.
  repeat split; [exact Hl|apply generate_local_response_in
                |apply generate_local_response_nonempty].
Qed.

Lemma local_fallback_empty_message_witness :
  snd (generate_chat_response (fun _ => None) (fun _ => None)
         both_configured "")
  = local_generic
  /\ snd (generate_chat_response (fun _ => Some "pong") (fun _ => Some "pong")
            none_configured "")
     <> "".
Proof.
  split.
  - exact (proj1 (proj2 (local_fallback_nonempty (fun _ => None)
                           (fun _ => None) both_configured ""
                           (or_intror eq_refl) (or_intror eq_refl)))).
  - exact (proj2 (proj2 (proj2 (local_fallback_nonempty (fun _ => Some "pong")
                                  (fun _ => Some "pong") none_configured ""
                                  (or_introl eq_refl) (or_introl eq_refl))))).
Defined.

End ChainProps.

(** * Further properties *)

(** ** Strings and the matcher *)

Module TextProps.
Import PyStr Re TextDefs.

Lemma length_drop n s : String.length (drop n s) = String.length s - n.
Proof.
  revert s. induction n as [|n IH]; intros [|c s]; simpl; auto with arith.
Qed.

Lemma take_drop n s : take n s +:+ drop n s = s.
Proof.
  revert s. induction n as [|n IH]; intros [|c s]; simpl; try reflexivity.
  rewrite append_cons, IH. reflexivity.
Qed.

Lemma drop_drop a b s : drop b (drop a s) = drop (a + b) s.
Proof.
  revert s. induction a as [|a IH]; intros s; simpl.
  - destruct s; reflexivity.
  - destruct s as [|c s]; simpl; [destruct b; reflexivity|apply IH].
Qed.

Lemma drop_0 s : drop 0 s = s.
Proof. destruct s; reflexivity. Qed.

Lemma length_take n s : n <= String.length s -> String.length (take n s) = n.
Proof.
  revert s. induction n as [|n IH]; intros [|c s]; simpl; intros H;
    try reflexivity; try lia.
  rewrite IH; [reflexivity|lia].
Qed.

Lemma length_app (a b : string) :
  String.length (a +:+ b) = String.length a + String.length b.
Proof. induction a as [|c a IH]; [reflexivity|]. rewrite append_cons. simpl. lia. Qed.

Lemma app_assoc (a b c : string) : (a +:+ b) +:+ c = a +:+ (b +:+ c).
Proof.
  induction a as [|x a IH]; [reflexivity|]. rewrite !append_cons, IH. reflexivity.
Qed.

Lemma app_nil_r (a : string) : a +:+ "" = a.
Proof. induction a as [|x a IH]; [reflexivity|]. rewrite append_cons, IH. reflexivity. Qed.

Lemma drop_app_length (l post : string) :
  drop (String.length l) (l +:+ post) = post.
Proof.
  induction l as [|c l IH]; [apply drop_0|].
  rewrite append_cons. cbn [String.length drop]. exact IH.
Qed.

Lemma prefix_drop l s :
  String.prefix l s = true -> s = l +:+ drop (String.length l) s.
Proof.
  intros [post ->]%prefix_spec. rewrite drop_app_length. reflexivity.
Qed.

Lemma all_chars_app p (a b : string) :
  all_chars p (a +:+ b) = all_chars p a && all_chars p b.
Proof.
  induction a as [|c a IH]; [reflexivity|].
  rewrite append_cons. simpl. rewrite IH, andb_assoc. reflexivity.
Qed.

Lemma all_chars_impl (p q : ascii -> bool) s :
  (forall c, p c = true -> q c = true) ->
  all_chars p s = true -> all_chars q s = true.
Proof.
  intros Hpq. induction s as [|c s IH]; simpl; [reflexivity|].
  intros [Hc Hs]%andb_true_iff. rewrite (Hpq c Hc), (IH Hs). reflexivity.
Qed.

(** A part of a string inherits what holds of all its characters. *)
Lemma all_chars_contains p needle hay :
  contains needle hay = true -> all_chars p hay = true ->
  all_chars p needle = true.
Proof.
  intros (pre & post & ->)%contains_spec.
  rewrite !all_chars_app. intros [_ [H _]%andb_true_iff]%andb_true_iff. exact H.
Qed.

Lemma contains_take_drop m i pre s :
  contains (take m (drop i s)) (pre +:+ s) = true.
Proof.
  apply contains_spec.
  exists (pre +:+ take i s), (drop m (drop i s)).
  rewrite app_assoc. f_equal.
  rewrite <- (take_drop i s) at 1. f_equal.
  symmetry. apply take_drop.
Qed.

Section ExecSteps.
Context {A : Type}.

Lemma plus_more_steps (p : ascii -> bool) (k : string -> option A) s x :
  plus_more p k s = Some x ->
  exists n, n <= String.length s /\ all_chars p (take n s) = true
            /\ k (drop n s) = Some x.
Proof.
  induction s as [|c s IH]; cbn [plus_more]; intros H.
  - exists 0. repeat split; [simpl; lia|exact H].
  - destruct (p c) eqn:Hc.
    + destruct (plus_more p k s) as [y|] eqn:E.
      * injection H as ->. destruct (IH eq_refl) as (n & Hn & Hall & Hk).
        exists (S n). cbn [take drop all_chars String.length].
        rewrite Hc, Hall. repeat split; [lia|exact Hk].
      * exists 0. repeat split; [simpl; lia|exact H].
    + exists 0. repeat split; [simpl; lia|exact H].
Qed.

(** The matcher only moves forward, and a group holds a part of the text
    it was run on. *)
Lemma exec_steps (r : regex) :
  forall (k : string -> option capture -> option A) s g x,
    exec r k s g = Some x ->
    exists n g', k (drop n s) g' = Some x /\ step_result r s g n g'.
Proof.
  unfold step_result.
  induction r as [l|c|r1 IH1 r2 IH2|r1 IH1 r2 IH2|r1 IH1|r1 IH1];
    intros k s g x H; cbn [exec] in H.
  - destruct (String.prefix l s) eqn:Hp; [|discriminate].
    exists (String.length l), g. split; [exact H|].
    pose proof (f_equal String.length (prefix_drop l s Hp)) as Hlen.
    rewrite length_app in Hlen.
    split; [lia|]. split.
    { cbn [consumes]. destruct l; [discriminate|simpl; lia]. }
    split; [discriminate|]. split; [left; reflexivity|reflexivity].
  - destruct s as [|a s]; [discriminate|].
    destruct (in_class c a) eqn:Ha; [|discriminate].
    apply plus_more_steps in H as (n & Hn & Hall & Hk).
    exists (S n), g. cbn [drop take String.length all_chars].
    split; [exact Hk|].
    split; [lia|]. split; [lia|]. split.
    { intros c' [= <-]. rewrite Ha, Hall. reflexivity. }
    split; [left; reflexivity|reflexivity].
  - apply IH1 in H as (n1 & g1 & H & Hn1 & Hc1 & _ & Hg1 & Hl1).
    apply IH2 in H as (n2 & g2 & H & Hn2 & Hc2 & _ & Hg2 & Hl2).
    rewrite drop_drop in H. rewrite length_drop in Hn2.
    exists (n1 + n2), g2. split; [exact H|].
    split; [lia|]. split.
    { cbn [consumes]. intros [Hc|Hc]%orb_true_iff; [specialize (Hc1 Hc)|specialize (Hc2 Hc)]; lia. }
    split; [discriminate|]. split.
    + destruct Hg2 as [->|(i & m & Him & -> & Hcls)].
      * destruct Hg1 as [->|(i & m & Him & -> & Hcls)]; [left; reflexivity|].
        right. exists i, m. split; [lia|]. split; [reflexivity|].
        intros c. cbn [group_class]. intros [Hc _]%andb_true_iff. auto.
      * right. exists (n1 + i), m. split; [lia|]. split.
        -- rewrite drop_drop, length_drop. do 2 f_equal. lia.
        -- intros c. cbn [group_class]. intros [_ Hc]%andb_true_iff.
           rewrite <- drop_drop. auto.
    + cbn [groupless]. intros [Ha Hb]%andb_true_iff.
      rewrite (Hl2 Hb). auto.
  - destruct (exec r1 k s g) as [y|] eqn:E.
    + injection H as ->.
      apply IH1 in E as (n & g' & H & Hn & Hc & _ & Hg & Hl).
      exists n, g'. split; [exact H|]. split; [exact Hn|]. split.
      { cbn [consumes]. intros [Hc1 _]%andb_true_iff. auto. }
      split; [discriminate|]. split.
      * destruct Hg as [->|(i & m & Him & -> & Hcls)]; [left; reflexivity|].
        right. exists i, m. split; [exact Him|]. split; [reflexivity|].
        intros c. cbn [group_class]. intros [Hc1 _]%andb_true_iff. auto.
      * cbn [groupless]. intros [Ha _]%andb_true_iff. auto.
    + apply IH2 in H as (n & g' & H & Hn & Hc & _ & Hg & Hl).
      exists n, g'. split; [exact H|]. split; [exact Hn|]. split.
      { cbn [consumes]. intros [_ Hc2]%andb_true_iff. auto. }
      split; [discriminate|]. split.
      * destruct Hg as [->|(i & m & Him & -> & Hcls)]; [left; reflexivity|].
        right. exists i, m. split; [exact Him|]. split; [reflexivity|].
        intros c. cbn [group_class]. intros [_ Hc2]%andb_true_iff. auto.
      * cbn [groupless]. intros [_ Hb]%andb_true_iff. auto.
  - destruct (exec r1 k s g) as [y|] eqn:E.
    + injection H as ->.
      apply IH1 in E as (n & g' & H & Hn & Hc & _ & Hg & Hl).
      exists n, g'. split; [exact H|]. split; [exact Hn|].
      split; [discriminate|]. split; [discriminate|]. split; [|exact Hl].
      destruct Hg as [->|(i & m & Him & -> & Hcls)]; [left; reflexivity|].
      right. exists i, m. split; [exact Him|]. split; [reflexivity|].
      intros c. cbn [group_class]. auto.
    + exists 0, g. rewrite drop_0. split; [exact H|].
      split; [lia|]. split; [discriminate|]. split; [discriminate|].
      split; [left; reflexivity|reflexivity].
  - apply IH1 in H as (n & g' & H & Hn & Hc & Hall & _ & _).
    rewrite length_drop in H.
    replace (String.length s - (String.length s - n)) with n in H by lia.
    exists n, (Some (take n s, String.length s)). split; [exact H|].
    split; [exact Hn|]. split; [exact Hc|]. split; [discriminate|].
    split; [|discriminate].
    right. exists 0, n. rewrite drop_0, Nat.sub_0_r.
    split; [lia|]. split; [reflexivity|].
    intros c Hgc. cbn [group_class] in Hgc.
    destruct r1 as [| c' | | | |]; try discriminate.
    assert (c' = c) as -> by (destruct c', c; try discriminate; reflexivity).
    split; [apply Hc; reflexivity|apply Hall; reflexivity].
Qed.

(** A continuation that succeeds more often makes the run succeed more
    often. *)
Lemma plus_more_mono (p : ascii -> bool) (k1 k2 : string -> option A) s :
  (forall rest, is_Some (k1 rest) -> is_Some (k2 rest)) ->
  is_Some (plus_more p k1 s) -> is_Some (plus_more p k2 s).
Proof.
  intros Hk. induction s as [|c s IH]; cbn [plus_more]; [apply Hk|].
  destruct (p c); [|apply Hk].
  destruct (plus_more p k1 s) as [y|].
  - intros _. destruct (IH (mk_is_Some _ _ eq_refl)) as [z ->]. eauto.
  - intros H. destruct (plus_more p k2 s); [eauto|apply Hk, H].
Qed.

Lemma exec_mono (r : regex) :
  forall (k1 k2 : string -> option capture -> option A) s g,
    (forall rest g', is_Some (k1 rest g') -> is_Some (k2 rest g')) ->
    is_Some (exec r k1 s g) -> is_Some (exec r k2 s g).
Proof.
  induction r as [l|c|r1 IH1 r2 IH2|r1 IH1 r2 IH2|r1 IH1|r1 IH1];
    intros k1 k2 s g Hk; cbn [exec].
  - destruct (String.prefix l s); [apply Hk|auto].
  - destruct s as [|a s]; [auto|]. destruct (in_class c a); [|auto].
    apply plus_more_mono. intros rest. apply Hk.
  - apply IH1. intros rest g'. apply IH2, Hk.
  - destruct (exec r1 k1 s g) as [y|] eqn:E.
    + intros _. destruct (IH1 k1 k2 s g Hk) as [z ->]; [rewrite E|]; eauto.
    + intros H. destruct (exec r1 k2 s g); [eauto|].
      exact (IH2 k1 k2 s g Hk H).
  - destruct (exec r1 k1 s g) as [y|] eqn:E.
    + intros _. destruct (IH1 k1 k2 s g Hk) as [z ->]; [rewrite E|]; eauto.
    + intros H. destruct (exec r1 k2 s g); [eauto|apply Hk, H].
  - apply IH1. intros rest g'. apply Hk.
Qed.

End ExecSteps.

Lemma match_here_inv r n0 s m :
  match_here r n0 s = Some m ->
  exists n g',
    step_result r s None n g'
    /\ group0 m = take n s
    /\ start0 m = n0 - String.length s
    /\ group1 m = fst <$> g'.
Proof.
  unfold match_here.
  destruct (exec r _ s None) as [[rest g]|] eqn:E; [|discriminate].
  intros [= <-]. apply exec_steps in E as (n & g' & [= <- <-] & Hstep).
  exists n, g'. split; [exact Hstep|]. cbn.
  destruct Hstep as (Hn & _). rewrite length_drop.
  replace (String.length s - (String.length s - n)) with n by lia.
  repeat split.
Qed.

(** [search_from] returns the match at the first suffix that has one. *)
Lemma search_from_inv r n0 s m :
  search_from r n0 s = Some m ->
  exists j, j <= String.length s
            /\ match_here r n0 (drop j s) = Some m
            /\ forall j', j' < j -> match_here r n0 (drop j' s) = None.
Proof.
  induction s as [|c s IH]; cbn [search_from].
  - destruct (match_here r n0 "") eqn:E; [|discriminate].
    intros [= <-]. exists 0. repeat split; [simpl; lia|exact E|lia].
  - destruct (match_here r n0 (String c s)) eqn:E.
    + intros [= <-]. exists 0. repeat split; [simpl; lia|exact E|lia].
    + intros H. destruct (IH H) as (j & Hj & Hm & Hbefore).
      exists (S j). repeat split; [simpl; lia|exact Hm|].
      intros [|j'] Hlt; [exact E|]. apply Hbefore. lia.
Qed.

Lemma search_from_some r n0 s j :
  j <= String.length s ->
  is_Some (match_here r n0 (drop j s)) -> is_Some (search_from r n0 s).
Proof.
  revert j. induction s as [|c s IH]; intros j Hj; cbn [search_from].
  - destruct j; simpl; intros [m ->]; eauto.
  - destruct (match_here r n0 (String c s)) eqn:E; [eauto|].
    destruct j as [|j]; [rewrite drop_0, E; intros [? [=]]|].
    cbn [drop]. apply IH. simpl in Hj. lia.
Qed.

(** A match of [search]: its place [j], its length [n], and its group. *)
Lemma search_inv r text m :
  search r text = Some m ->
  exists j n g',
    j + n <= String.length text
    /\ step_result r (drop j text) None n g'
    /\ group0 m = take n (drop j text)
    /\ start0 m = j
    /\ group1 m = fst <$> g'
    /\ forall j', j' < j ->
                  match_here r (String.length text) (drop j' text) = None.
Proof.
  unfold search. intros H.
  apply search_from_inv in H as (j & Hj & Hm & Hbefore).
  apply match_here_inv in Hm as (n & g' & Hstep & H0 & Hs & H1).
  exists j, n, g'. pose proof Hstep as (Hn & _). rewrite length_drop in Hn.
  split; [lia|]. split; [exact Hstep|]. split; [exact H0|].
  split; [rewrite Hs, length_drop; lia|]. split; [exact H1|exact Hbefore].
Qed.

(** The text of group 1 occurs in the searched text. *)
Lemma search_group1_contains r text m g :
  search r text = Some m -> group1 m = Some g -> contains g text = true.
Proof.
  intros (j & n & g' & _ & Hstep & _ & _ & Hg1 & _)%search_inv Hg.
  rewrite Hg1 in Hg.
  destruct Hstep as (_ & _ & _ & [->|(i & k & _ & -> & _)] & _); [discriminate|].
  injection Hg as <-.
  rewrite <- (take_drop j text) at 2. apply contains_take_drop.
Qed.

(** When every group of the pattern is a run of one class, group 1 is a
    non-empty run of characters of that class. *)
Lemma search_group1_class c r text m g :
  group_class c r = true ->
  search r text = Some m -> group1 m = Some g ->
  g <> "" /\ all_chars (in_class c) g = true.
Proof.
  intros Hc (j & n & g' & _ & Hstep & _ & _ & Hg1 & _)%search_inv Hg.
  rewrite Hg1 in Hg.
  destruct Hstep as (Hn & _ & _ & [->|(i & k & Hik & -> & Hcls)] & _);
    [discriminate|].
  injection Hg as <-. destruct (Hcls c Hc) as [Hk Hall].
  split; [|exact Hall]. intros Heq.
  apply (f_equal String.length) in Heq.
  rewrite length_take in Heq by (rewrite length_drop; lia).
  simpl in Heq. lia.
Qed.

Lemma match_here_start1 r n0 s m :
  match_here r n0 s = Some m ->
  exists n g',
    step_result r s None n g'
    /\ group1 m = fst <$> g'
    /\ start1 m = (fun c : capture => n0 - snd c) <$> g'.
Proof.
  unfold match_here.
  destruct (exec r _ s None) as [[rest g]|] eqn:E; [|discriminate].
  intros [= <-]. apply exec_steps in E as (n & g' & [= <- <-] & Hstep).
  exists n, g'. split; [exact Hstep|]. split; reflexivity.
Qed.

(** Group 1 of a match is the text at its span: [m.group(1)] is
    [text[m.start(1):m.end(1)]]. *)
Lemma search_span r text m g :
  search r text = Some m -> group1 m = Some g ->
  exists i,
    start1 m = Some i
    /\ span1 m = Some (i, i + String.length g)
    /\ g = take (String.length g) (drop i text).
Proof.
  unfold search. intros H Hg.
  apply search_from_inv in H as (j & Hj & Hm & _).
  apply match_here_start1 in Hm as (n & g' & Hstep & Hg1 & Hs1).
  rewrite Hg1 in Hg.
  destruct Hstep as (Hn & _ & _ & [->|(i & k & Hik & -> & _)] & _);
    [discriminate|].
  cbn in Hg, Hs1. injection Hg as <-.
  rewrite !length_drop in *. rewrite drop_drop in *.
  assert (Hlen : String.length (take k (drop (j + i) text)) = k)
    by (apply length_take; rewrite length_drop; lia).
  exists (j + i).
  assert (Hst : start1 m = Some (j + i)) by (rewrite Hs1; f_equal; lia).
  split; [exact Hst|]. split.
  - unfold span1. rewrite Hg1, Hst. cbn. rewrite Hlen. reflexivity.
  - rewrite Hlen. reflexivity.
Qed.

(** Two matches on one text whose groups have the same span captured the
    same text. *)
Lemma same_span_same_text r1 r2 text m1 m2 g1 :
  search r1 text = Some m1 -> search r2 text = Some m2 ->
  group1 m1 = Some g1 -> span1 m2 = span1 m1 -> group1 m2 = Some g1.
Proof.
  intros H1 H2 Hg1 Hspan.
  destruct (search_span _ _ _ _ H1 Hg1) as (i1 & _ & Hs1 & Ht1).
  rewrite Hs1 in Hspan.
  destruct (group1 m2) as [g2|] eqn:Hg2;
    [|unfold span1 in Hspan; rewrite Hg2 in Hspan; discriminate].
  destruct (search_span _ _ _ _ H2 Hg2) as (i2 & _ & Hs2 & Ht2).
  rewrite Hs2 in Hspan. injection Hspan as Hi Hlen.
  f_equal. rewrite Ht2, Ht1. subst i2.
  replace (String.length g2) with (String.length g1) by lia. reflexivity.
Qed.

Lemma search_weaken r q text :
  (forall n0 s, is_Some (match_here r n0 s) -> is_Some (match_here q n0 s)) ->
  is_Some (search r text) -> is_Some (search q text).
Proof.
  intros Hrq [m Hm]. unfold search in *.
  apply search_from_inv in Hm as (j & Hj & Hm & _).
  apply (search_from_some q _ text j Hj), Hrq. rewrite Hm. eauto.
Qed.

Lemma match_here_is_Some r n0 s :
  is_Some (match_here r n0 s)
  <-> is_Some (exec r (fun rest g => Some (rest, g)) s None).
Proof.
  unfold match_here.
  destruct (exec r _ s None) as [[rest g]|]; split; intros [x H]; eauto;
    discriminate.
Qed.

Lemma exec_alt_in {A} words w (k : string -> option capture -> option A) s g :
  In w words ->
  is_Some (exec (RLit w) k s g) -> is_Some (exec (alt words) k s g).
Proof.
  induction words as [|x [|y tl] IH]; intros Hin.
  - destruct Hin.
  - destruct Hin as [->|[]]. auto.
  - change (alt (x :: y :: tl)) with (RAlt (RLit x) (alt (y :: tl))).
    cbn [exec]. intros H.
    destruct (if String.prefix x s then _ else None) as [z|] eqn:E; [eauto|].
    destruct Hin as [->|Hin].
    + cbn [exec] in H. rewrite E in H. destruct H as [? [=]].
    + apply (IH Hin H).
Qed.

(** ** Lower-casing *)

Lemma lower_char_idem c : lower_char (lower_char c) = lower_char c.
Proof. destruct c as [[] [] [] [] [] [] [] []]; reflexivity. Qed.

Lemma isspace_lower_char c : isspace (lower_char c) = isspace c.
Proof. destruct c as [[] [] [] [] [] [] [] []]; reflexivity. Qed.

Lemma isupper_lower_char c : isupper (lower_char c) = false.
Proof. destruct c as [[] [] [] [] [] [] [] []]; reflexivity. Qed.

Lemma lower_idem s : lower (lower s) = lower s.
Proof.
  induction s as [|c s IH]; [reflexivity|].
  cbn [lower]. rewrite lower_char_idem, IH. reflexivity.
Qed.

Lemma lower_app (a b : string) : lower (a +:+ b) = lower a +:+ lower b.
Proof.
  induction a as [|c a IH]; [reflexivity|].
  rewrite append_cons. cbn [lower]. rewrite IH, append_cons. reflexivity.
Qed.

Lemma lower_no_upper s : all_chars (fun c => negb (isupper c)) (lower s) = true.
Proof.
  induction s as [|c s IH]; [reflexivity|].
  cbn [lower all_chars]. rewrite isupper_lower_char, IH. reflexivity.
Qed.

Lemma split_go_lower cur s :
  split_go (lower <$> cur) (lower s) = List.map lower (split_go cur s).
Proof.
  revert cur. induction s as [|c s IH]; intros cur; cbn [lower split_go].
  - destruct cur; reflexivity.
  - rewrite isspace_lower_char. destruct (isspace c).
    + destruct cur as [w|]; cbn [fmap option_fmap option_map List.map];
        [f_equal|]; apply (IH None).
    + rewrite <- IH. f_equal. destruct cur as [w|]; cbn; [|reflexivity].
      rewrite lower_app. reflexivity.
Qed.

(** Splitting commutes with lower-casing. *)
Lemma split_lower s : split (lower s) = List.map lower (split s).
Proof. apply (split_go_lower None). Qed.

Lemma split_lower_length s :
  length (split (lower s)) = length (split s).
Proof. rewrite split_lower. apply length_map. Qed.

End TextProps.

(** ** More on the parser of the AI engine *)

Module IntentProps.
Import PyStr Re AIEngine TextDefs PipelineDefs ParserDefs ClassifierDefs TextProps.

Lemma first_pattern_some ps text p m :
  first_pattern ps text = Some (p, m) -> In p ps /\ search p text = Some m.
Proof.
  induction ps as [|q ps IH]; cbn [first_pattern]; [discriminate|].
  destruct (search q text) as [m'|] eqn:E.
  - intros [= <- <-]. split; [left; reflexivity|exact E].
  - intros H. destruct (IH H) as [Hin Hs]. split; [right; exact Hin|exact Hs].
Qed.

Lemma first_template_some ts text t p m :
  first_template ts text = Some (t, p, m) ->
  In (t, p) (rules_of ts) /\ search p text = Some m.
Proof.
  induction ts as [|[name t0] ts IH]; cbn [first_template]; [discriminate|].
  destruct (first_pattern (patterns t0) text) as [[p0 m0]|] eqn:E.
  - intros [= <- <- <-]. apply first_pattern_some in E as [Hin Hs].
    split; [|exact Hs]. cbn [rules_of flat_map]. apply in_or_app. left.
    apply in_map. exact Hin.
  - intros H. destruct (IH H) as [Hin Hs]. split; [|exact Hs].
    cbn [rules_of flat_map]. apply in_or_app. right. exact Hin.
Qed.

(** Two messages that differ only in the case of their letters. *)
Lemma hits_lower name m m' : lower m = lower m' -> hits name m = hits name m'.
Proof. unfold hits. intros ->. reflexivity. Qed.

(** X1. The classifier ignores the case of letters: two messages with the
    same lower-cased text get the same category and the same confidence. *)
Theorem classify_case_insensitive (m m' : string) :
  lower m = lower m' ->
  task_type (parse_intent m) = task_type (parse_intent m')
  /\ confidence (parse_intent m) = confidence (parse_intent m').
Proof.
  intros Hl.
  pose proof (ClassifierProps.parse_intent_winner m) as [Hw Hd].
  pose proof (ClassifierProps.parse_intent_winner m') as [Hw' Hd'].
  rewrite !(hits_lower _ m m' Hl) in Hw. rewrite <- Hw' in Hw.
  injection Hw as Ht Hn. split; [exact Ht|].
  rewrite (ClassifierProps.confidence_eq m _ eq_refl).
  rewrite (ClassifierProps.confidence_eq m' _ eq_refl).
  rewrite Hn. do 2 f_equal.
  rewrite <- (split_lower_length m), <- (split_lower_length m'), Hl. reflexivity.
Qed.

Lemma classify_case_insensitive_witness :
  lower "OPEN Chrome" = lower "open chrome"
  /\ task_type (parse_intent "OPEN Chrome") = task_type (parse_intent "open chrome").
Proof.
  assert (H : lower "OPEN Chrome" = lower "open chrome") by reflexivity.
  split; [exact H|]. exact (proj1 (classify_case_insensitive _ _ H)).
Defined.

(** X2. The parser ignores the case of letters in the action and in the
    parameters, and in the target as well whenever a template matches or the
    message has two or more words; only a single unmatched word is kept in
    its original case, as the target of an [unknown] action. *)
Theorem parse_case_insensitive (m m' : string) :
  lower m = lower m' ->
  let r := extract_action_target m in
  let r' := extract_action_target m' in
  fst (fst r) = fst (fst r')
  /\ snd r = snd r'
  /\ (is_Some (first_template task_templates (lower m))
      \/ 2 <= length (split (lower m)) -> snd (fst r) = snd (fst r'))
  /\ (first_template task_templates (lower m) = None ->
      length (split (lower m)) < 2 ->
      r = ("unknown", m, ∅) /\ r' = ("unknown", m', ∅)).
Proof.
  intros Hl. cbv zeta. unfold extract_action_target, extract_parameters, extract_one.
  rewrite <- !Hl.
  destruct (first_template task_templates (lower m)) as [[[t p] x]|] eqn:E; cbn.
  - split; [reflexivity|]. split; [reflexivity|].
    split; [intros _; reflexivity|intros [=]].
  - destruct (split (lower m)) as [|w [|w' ws]] eqn:Es; cbn.
    + split; [reflexivity|]. split; [reflexivity|].
      split; [intros [[? [=]]|H]; lia|intros _ _; split; reflexivity].
    + split; [reflexivity|]. split; [reflexivity|].
      split; [intros [[? [=]]|H]; lia|intros _ _; split; reflexivity].
    + split; [reflexivity|]. split; [reflexivity|].
      split; [intros _; reflexivity|intros _ H; lia].
Qed.

Lemma parse_case_insensitive_witness :
  lower "Play SOME Music" = lower "play some music"
  /\ extract_action_target "Play SOME Music" = extract_action_target "play some music".
Proof.
  assert (H : lower "Play SOME Music" = lower "play some music") by reflexivity.
  split; [exact H|].
  pose proof (parse_case_insensitive _ _ H) as (Ha & Hp & Ht & _).
  destruct (extract_action_target "Play SOME Music") as [[a t] p].
  destruct (extract_action_target "play some music") as [[a' t'] p'].
  cbn in *. rewrite Ha, Hp, Ht; [reflexivity|].
  right. vm_compute. lia.
Defined.

(** The shape of every rule: the patterns of [open_application] capture a
    run of word characters, those of [web_search] and [file_operation] a
    run of characters other than a newline, and those of [system_control]
    have no group. *)
Lemma rules_shape t p :
  In (t, p) rules ->
  (t_action t = "open_app"
   /\ group_class CWord p = true /\ always_captures p = true)
  \/ ((t_action t = "web_search" \/ t_action t = "file_operation")
      /\ group_class CDot p = true /\ always_captures p = true)
  \/ (t_action t = "system_control" /\ groups p = 0).
Proof.
  intros Hin. cbv [rules rules_of task_templates flat_map List.map app] in Hin.
  cbn [patterns open_application web_search file_operation system_control
       List.map app] in Hin.
  repeat (destruct Hin as [[= <- <-]|Hin];
          [cbn; first [left; repeat split; reflexivity
                      |right; left; split; [auto|split; reflexivity]
                      |right; right; split; reflexivity]|]).
  destruct Hin.
Qed.

Lemma target_of_capture t p m g :
  In (t, p) rules -> always_captures p = true -> group1 m = Some g ->
  group1_or_empty p m = g.
Proof.
  intros Hin Hac Hg. pose proof ParserProps.rules_capture as Hrc.
  rewrite List.Forall_forall in Hrc. specialize (Hrc _ Hin).
  cbn [snd] in Hrc. unfold group1_or_empty. rewrite Hrc, Hac, Hg. reflexivity.
Qed.

Lemma isword_no_space c : isword c = true -> negb (isspace c) = true.
Proof.
  destruct c as [[] [] [] [] [] [] [] []]; intros H;
    first [reflexivity|vm_compute in H; discriminate H].
Qed.

(** X3. When a template matches, the target is a part of the lower-cased
    message and holds none of the capital letters A to Z.  For [open_app]
    it is non-empty and free of whitespace, and for a message of 7-bit
    characters it is a run of the characters a-z, 0-9 and underscore; for
    [web_search] and [file_operation] it is non-empty and has no newline;
    for [system_control] it is empty. *)
Theorem template_target_shape (message : string) t p m :
  first_template task_templates (lower message) = Some (t, p, m) ->
  let target := snd (fst (extract_action_target message)) in
  contains target (lower message) = true
  /\ all_chars not_A_to_Z target = true
  /\ (t_action t = "open_app" ->
      target <> ""
      /\ all_chars (fun c => negb (isspace c)) target = true
      /\ (ascii_text message -> all_chars (in_class CWord) target = true))
  /\ (t_action t = "web_search" \/ t_action t = "file_operation" ->
      target <> "" /\ all_chars (in_class CDot) target = true)
  /\ (t_action t = "system_control" -> target = "").
Proof.
  intros H. cbv zeta. unfold extract_action_target. rewrite H. cbn [fst snd].
  apply first_template_some in H as [Hin Hs]. fold rules in Hin.
  assert (Hc : contains (group1_or_empty p m) (lower message) = true).
  { unfold group1_or_empty. destruct (0 <? groups p)%nat; [|apply contains_empty].
    destruct (group1 m) as [g|] eqn:Hg; [|apply contains_empty].
    exact (search_group1_contains _ _ _ _ Hs Hg). }
  split; [exact Hc|].
  split; [exact (all_chars_contains _ _ _ Hc (lower_no_upper message))|].
  destruct (rules_shape t p Hin)
    as [(Ha & Hg & Hac)|[(Ha & Hg & Hac)|(Ha & Hg)]].
  - destruct (captures_group p _ m Hac Hs) as [g Hg1].
    rewrite (target_of_capture t p m g Hin Hac Hg1).
    destruct (search_group1_class _ _ _ _ _ Hg Hs Hg1) as [Hne Hw].
    split; [|split].
    + intros _. split; [exact Hne|]. split; [|intros _; exact Hw].
      revert Hw. apply all_chars_impl. exact isword_no_space.
    + intros [Hw'|Hf]; rewrite Ha in *; discriminate.
    + intros Hsys. rewrite Ha in Hsys. discriminate.
  - destruct (captures_group p _ m Hac Hs) as [g Hg1].
    rewrite (target_of_capture t p m g Hin Hac Hg1).
    split; [|split].
    + intros Hopen. destruct Ha as [Ha|Ha]; rewrite Ha in Hopen; discriminate.
    + intros _. exact (search_group1_class _ _ _ _ _ Hg Hs Hg1).
    + intros Hsys. destruct Ha as [Ha|Ha]; rewrite Ha in Hsys; discriminate.
  - unfold group1_or_empty. rewrite Hg. cbn.
    split; [|split; [|reflexivity]].
    + intros Hopen. rewrite Ha in Hopen. discriminate.
    + intros [Hw|Hf]; rewrite Ha in *; discriminate.
Qed.

Lemma template_target_shape_witness :
  first_template task_templates (lower "Please LAUNCH Notepad now")
  = Some (open_application, cat [RLit "launch"; ws; word_group],
          {| group0 := "launch notepad"; start0 := 7;
             group1 := Some "notepad"; start1 := Some 14 |})
  /\ ascii_text "Please LAUNCH Notepad now"
  /\ contains (snd (fst (extract_action_target "Please LAUNCH Notepad now")))
       (lower "Please LAUNCH Notepad now") = true
  /\ all_chars (in_class CWord)
       (snd (fst (extract_action_target "Please LAUNCH Notepad now"))) = true.
Proof.
  assert (H : first_template task_templates (lower "Please LAUNCH Notepad now")
              = Some (open_application, cat [RLit "launch"; ws; word_group],
                      {| group0 := "launch notepad"; start0 := 7;
                         group1 := Some "notepad"; start1 := Some 14 |}))
    by (vm_compute; reflexivity).
  assert (Ha : ascii_text "Please LAUNCH Notepad now") by reflexivity.
  split; [exact H|]. split; [exact Ha|].
  pose proof (template_target_shape _ _ _ _ H) as (Hc & _ & Ho & _).
  split; [exact Hc|].
  exact (proj2 (proj2 (Ho eq_refl)) Ha).
Defined.

(** Each parameter regex sets its group, a run of one class. *)
Lemma param_regexes_shape name re :
  In (name, re) param_regexes ->
  always_captures re = true
  /\ (group_class CWord re = true \/ group_class CDot re = true).
Proof.
  intros [[= <- <-]|[[= <- <-]|[[= <- <-]|[]]]]; split; try reflexivity;
    first [left; reflexivity|right; reflexivity].
Qed.

Lemma mem_In name names : mem name names = true -> In name names.
Proof.
  unfold mem. intros (x & Hin & Heq)%existsb_exists.
  apply String.eqb_eq in Heq. subst. exact Hin.
Qed.

(** X4. Every value the parameter pass stores is a string, never [None]:
    a non-empty part of the lower-cased message, which holds none of the
    capital letters A to Z, stored under a name that the template
    declares. *)
Theorem parameter_values_from_message (message : string) t k v :
  extract_parameters message t !! k = Some v ->
  In k (t_parameters t)
  /\ exists s, v = PyStr s /\ s <> ""
               /\ contains s (lower message) = true
               /\ all_chars not_A_to_Z s = true.
Proof.
  intros Hk.
  assert (Hdom : k ∈ dom (extract_parameters message t))
    by (apply elem_of_dom; eauto).
  apply ParserProps.extract_parameters_dom in Hdom.
  assert (Hin : exists re, In (k, re) param_regexes).
  { set_unfold in Hdom. destruct Hdom as [[->| ->]| ->];
      [exists app_name_re|exists query_re|exists file_path_re];
      cbn; auto. }
  destruct Hin as [re Hin].
  rewrite (ParserProps.extract_parameters_lookup _ _ _ _ Hin) in Hk.
  destruct (mem k (t_parameters t)) eqn:Hm; [|discriminate].
  split; [apply mem_In, Hm|].
  destruct (search re (lower message)) as [m|] eqn:Hs; [|discriminate].
  injection Hk as <-.
  destruct (param_regexes_shape _ _ Hin) as [Hac Hcls].
  destruct (captures_group re _ m Hac Hs) as [g Hg]. rewrite Hg. cbn.
  exists g. split; [reflexivity|].
  pose proof (search_group1_contains _ _ _ _ Hs Hg) as Hc.
  split; [|split; [exact Hc|]].
  - destruct Hcls as [Hcls|Hcls];
      exact (proj1 (search_group1_class _ _ _ _ _ Hcls Hs Hg)).
  - exact (all_chars_contains _ _ _ Hc (lower_no_upper message)).
Qed.

Lemma parameter_values_witness :
  extract_parameters "Search for Python Tutorials" web_search !! "query"
  = Some (PyStr "python tutorials")
  /\ In "query" (t_parameters web_search).
Proof.
  assert (H : extract_parameters "Search for Python Tutorials" web_search !! "query"
              = Some (PyStr "python tutorials")) by (vm_compute; reflexivity).
  split; [exact H|].
  exact (proj1 (parameter_values_from_message _ _ _ _ H)).
Defined.

Lemma exec_seq {A} a b (k : string -> option capture -> option A) s g :
  exec (RSeq a b) k s g = exec a (fun rest g' => exec b k rest g') s g.
Proof. reflexivity. Qed.

Lemma exec_opt_skip {A} r (k : string -> option capture -> option A) s g :
  is_Some (k s g) -> is_Some (exec (ROpt r) k s g).
Proof. cbn [exec]. destruct (exec r k s g); eauto. Qed.

(** A pattern that starts with one of the words of an alternation matches
    wherever the pattern with that word alone does. *)
Lemma search_alt_head w words tail text :
  In w words ->
  is_Some (search (RSeq (RLit w) tail) text) ->
  is_Some (search (RSeq (alt words) tail) text).
Proof.
  intros Hin. apply search_weaken. intros n0 s.
  rewrite !match_here_is_Some, !exec_seq. apply exec_alt_in, Hin.
Qed.

Lemma open_patterns_app_name p text :
  In p (patterns open_application) ->
  is_Some (search p text) -> is_Some (search app_name_re text).
Proof.
  intros [<-|[<-|[<-|[]]]]; apply search_alt_head; cbn; auto.
Qed.

Lemma search_patterns_query p text :
  In p (patterns web_search) ->
  is_Some (search p text) -> is_Some (search query_re text).
Proof.
  intros [<-|[<-|[<-|[]]]].
  - apply search_alt_head. cbn. auto.
  - intros H. apply (search_alt_head "google"); [cbn; auto|].
    revert H. apply search_weaken. intros n0 s.
    rewrite !match_here_is_Some. cbn [cat]. rewrite !exec_seq.
    apply exec_mono. intros rest g. rewrite !exec_seq.
    apply exec_mono. intros rest' g'. rewrite exec_seq.
    apply exec_opt_skip.
  - intros H. apply (search_alt_head "find"); [cbn; auto|].
    revert H. apply search_weaken. intros n0 s.
    rewrite !match_here_is_Some. cbn [cat]. rewrite !exec_seq.
    apply exec_mono. intros rest g. rewrite !exec_seq.
    apply exec_mono. intros rest' g'. rewrite exec_seq.
    apply exec_opt_skip.
Qed.

(** The first pattern of [file_operation] ends with the regex of
    [file_path]. *)
Lemma file_pattern_file_path text :
  is_Some (search (cat [alt ["open"; "create"; "save"; "delete"]; ws;
                        alt ["file"; "folder"]; ws; rest_group]) text) ->
  is_Some (search file_path_re text).
Proof.
  intros [m Hm]. unfold search in *.
  apply search_from_inv in Hm as (j & Hj & Hm & _).
  assert (Hs : is_Some (match_here
                          (cat [alt ["open"; "create"; "save"; "delete"]; ws;
                                alt ["file"; "folder"]; ws; rest_group])
                          (String.length text) (drop j text))) by eauto.
  apply match_here_is_Some in Hs as [x Hx].
  cbn [cat] in Hx. rewrite exec_seq in Hx.
  apply exec_steps in Hx as (n1 & g1 & Hx & Hn1 & _ & _ & _ & Hg1).
  rewrite (Hg1 eq_refl) in Hx. rewrite exec_seq in Hx.
  apply exec_steps in Hx as (n2 & g2 & Hx & Hn2 & _ & _ & _ & Hg2).
  rewrite (Hg2 eq_refl), !drop_drop in Hx.
  rewrite !length_drop in *.
  apply (search_from_some file_path_re _ text (j + n1 + n2)); [lia|].
  apply match_here_is_Some. unfold file_path_re. cbn [cat].
  replace (j + n1 + n2) with (j + (n1 + n2)) by lia. eauto.
Qed.

Lemma rules_action_patterns t p :
  In (t, p) rules ->
  (t_action t = "open_app" -> t = open_application /\ In p (patterns open_application))
  /\ (t_action t = "web_search" -> t = web_search /\ In p (patterns web_search))
  /\ (t_action t = "file_operation" ->
      t = file_operation /\ In p (patterns file_operation)).
Proof.
  intros Hin. cbv [rules rules_of task_templates flat_map List.map app] in Hin.
  cbn [patterns open_application web_search file_operation system_control
       List.map app] in Hin.
  repeat (destruct Hin as [[= <- <-]|Hin];
          [repeat split; try discriminate; cbn; auto 6|]).
  destruct Hin.
Qed.

(** X5. An intent that a template made an [open_app] always carries the
    parameter [app_name], and one it made a [web_search] always carries
    [query].  A [file_operation] carries [file_path] when its first
    pattern (with the word [file] or [folder]) is the one that matched. *)
Theorem intent_carries_parameter (message : string) t p m :
  first_template task_templates (lower message) = Some (t, p, m) ->
  let params := snd (extract_action_target message) in
  (t_action t = "open_app" -> is_Some (params !! "app_name"))
  /\ (t_action t = "web_search" -> is_Some (params !! "query"))
  /\ (t_action t = "file_operation" ->
      Some p = List.head (patterns file_operation) ->
      is_Some (params !! "file_path")).
Proof.
  intros H. cbv zeta. unfold extract_action_target. rewrite H. cbn [snd].
  apply first_template_some in H as [Hin Hs]. fold rules in Hin.
  destruct (rules_action_patterns t p Hin) as (Ho & Hw & Hf).
  split; [|split].
  - intros Ha. destruct (Ho Ha) as [-> Hp].
    rewrite (ParserProps.extract_parameters_lookup _ _ "app_name" app_name_re)
      by (cbn; auto).
    cbn [mem existsb t_parameters open_application String.eqb orb].
    replace (String.eqb "app_name" "app_name") with true by reflexivity.
    cbn [orb].
    destruct (open_patterns_app_name p _ Hp (mk_is_Some _ _ Hs)) as [m' ->].
    cbn. eauto.
  - intros Ha. destruct (Hw Ha) as [-> Hp].
    rewrite (ParserProps.extract_parameters_lookup _ _ "query" query_re)
      by (cbn; auto).
    replace (mem "query" (t_parameters web_search)) with true by reflexivity.
    destruct (search_patterns_query p _ Hp (mk_is_Some _ _ Hs)) as [m' ->].
    cbn. eauto.
  - intros Ha Hp. destruct (Hf Ha) as [-> _]. injection Hp as ->.
    rewrite (ParserProps.extract_parameters_lookup _ _ "file_path" file_path_re)
      by (cbn; auto).
    replace (mem "file_path" (t_parameters file_operation)) with true
      by reflexivity.
    destruct (file_pattern_file_path _ (mk_is_Some _ _ Hs)) as [m' ->].
    cbn. eauto.
Qed.

Lemma intent_carries_parameter_witness :
  first_template task_templates (lower "google weather today")
  = Some (web_search, cat [RLit "google"; ws; rest_group],
          {| group0 := "google weather today"; start0 := 0;
             group1 := Some "weather today"; start1 := Some 7 |})
  /\ is_Some (snd (extract_action_target "google weather today") !! "query").
Proof.
  assert (H : first_template task_templates (lower "google weather today")
              = Some (web_search, cat [RLit "google"; ws; rest_group],
                      {| group0 := "google weather today"; start0 := 0;
                         group1 := Some "weather today"; start1 := Some 7 |})).
  { vm_compute. reflexivity. }
  split; [exact H|].
  exact (proj1 (proj2 (intent_carries_parameter _ _ _ _ H)) eq_refl).
Defined.

(** A [file_operation] matched by the catch-all pattern can carry no
    parameter at all. *)
Example file_operation_without_path :
  extract_action_target "delete report" = ("file_operation", "report", ∅).
Proof. vm_compute. reflexivity. Qed.

End IntentProps.

(** ** The second pass and the spans of the two captures *)

Module SecondPassProps.
Import PyStr Re AIEngine TextDefs ParserDefs TextProps.

(** A template that declares one of the three extracted names has a group
    on every path of each of its patterns. *)
Lemma declaring_rules_capture t p name re :
  In (t, p) rules -> In (name, re) param_regexes ->
  mem name (t_parameters t) = true -> always_captures p = true.
Proof.
  intros Hin Hname Hdecl.
  cbv [rules rules_of task_templates flat_map List.map app] in Hin.
  cbn [patterns open_application web_search file_operation system_control
       List.map app] in Hin.
  repeat (destruct Hin as [[= <- <-]|Hin];
          [first [reflexivity
                 |destruct Hname as [[= <- <-]|[[= <- <-]|[[= <- <-]|[]]]];
                  vm_compute in Hdecl; discriminate Hdecl]|]).
  destruct Hin.
Qed.

(** C5, amended. When a template matches, the target is group 1 of its
    first matching pattern on the lower-cased message, and each of the
    parameters [app_name], [query], [file_path] that the template declares
    is re-derived by its own regex, applied to the lower-cased message as
    well: it is stored when that regex matches, with its group 1 as value.
    A declared parameter can differ from the target only when its regex
    does not capture the span that the template's pattern captured: it
    captures another span or does not match.  (Another span need not make
    them differ: the same text can be captured at two places.) *)
Theorem parameters_second_pass (message : string) t p m :
  first_template task_templates (lower message) = Some (t, p, m) ->
  let '(_, target, params) := extract_action_target message in
  target = group1_or_empty p m
  /\ (forall name re,
         In (name, re) param_regexes ->
         params !! name
         = if mem name (t_parameters t) then
             (fun m' => pyval_of_group (group1 m')) <$> search re (lower message)
           else None)
  /\ (forall name re,
         In (name, re) param_regexes ->
         mem name (t_parameters t) = true ->
         params !! name <> Some (PyStr target) ->
         span1 <$> search re (lower message) <> Some (span1 m)).
Proof.
  intros H. unfold extract_action_target. rewrite H.
  split; [reflexivity|]. split.
  - intros name re Hin. apply ParserProps.extract_parameters_lookup, Hin.
  - intros name re Hname Hdecl Hne Hspan. apply Hne. clear Hne.
    rewrite (ParserProps.extract_parameters_lookup _ _ _ _ Hname), Hdecl.
    destruct (search re (lower message)) as [m'|] eqn:Hs'; [|discriminate].
    cbn in Hspan. injection Hspan as Hspan. cbn. f_equal.
    apply IntentProps.first_template_some in H as [Hin Hs]. fold rules in Hin.
    pose proof (declaring_rules_capture _ _ _ _ Hin Hname Hdecl) as Hac.
    destruct (captures_group p _ m Hac Hs) as [g Hg].
    rewrite (IntentProps.target_of_capture _ _ _ _ Hin Hac Hg).
    rewrite (same_span_same_text _ _ _ _ _ _ Hs Hs' Hg Hspan). reflexivity.
Qed.

(** [Find a Search b]: the [web_search] template matches at [search b],
    its [query] regex at [find a search b]. *)
Lemma parameters_second_pass_witness :
  let message := "Find a Search b" in
  let p := cat [RLit "search"; ws; ROpt (cat [RLit "for"; ws]); rest_group] in
  let m := {| group0 := "search b"; start0 := 7;
              group1 := Some "b"; start1 := Some 14 |} in
  first_template task_templates (lower message) = Some (web_search, p, m)
  /\ snd (fst (extract_action_target message)) = "b"
  /\ snd (extract_action_target message) !! "query" = Some (PyStr "a search b")
  /\ span1 <$> search query_re (lower message) <> Some (span1 m).
Proof.
  intros message p m.
  assert (H : first_template task_templates (lower message)
              = Some (web_search, p, m)) by (vm_compute; reflexivity).
  split; [exact H|].
  pose proof (parameters_second_pass message web_search p m H) as Hthm.
  destruct (extract_action_target message) as [[act tgt] params] eqn:E.
  destruct Hthm as (Ht & Hlook & Hdiv). cbn [fst snd].
  assert (Htgt : tgt = "b") by (rewrite Ht; vm_compute; reflexivity).
  assert (Hq : params !! "query" = Some (PyStr "a search b")).
  { rewrite (Hlook "query" query_re) by (cbn; auto). vm_compute. reflexivity. }
  split; [exact Htgt|]. split; [exact Hq|].
  apply (Hdiv "query" query_re); [cbn; auto|reflexivity|].
  rewrite Hq, Htgt. discriminate.
Defined.

End SecondPassProps.

(** ** The message pipeline and the setup of the backends *)

Module PipelineProps.
Import PyStr AIEngine ClassifierDefs ChainDefs AISetup PipelineDefs.

Lemma task_type_cases message :
  task_type (parse_intent message) = "automation"
  \/ task_type (parse_intent message) = "information"
  \/ task_type (parse_intent message) = "workflow".
Proof.
  destruct (ClassifierProps.parse_intent_outcome message) as (H & _).
  cbv zeta in H. intuition auto.
Qed.

(** X6. For a message classified as automation, the reply offers help
    exactly when ten times the number of automation keywords found exceeds
    three times the number of words; otherwise it asks to be more specific.
    No backend is consulted either way. *)
Theorem automation_reply_threshold
  (gemini_generate_content openai_chat_completion : string -> option string)
  (e : engine) (message : string) :
  task_type (parse_intent message) = "automation" ->
  process_message gemini_generate_content openai_chat_completion e message
  = [ status_updated "Processing message...";
      response_ready
        (if (3 * Nat.max (length (split message)) 1
             <? 10 * hits "automation" message)%nat
         then "I'll help you with that automation task: "
              +:+ action (parse_intent message) +:+ " "
              +:+ target (parse_intent message) +:+ ". "
              +:+ "Processing this request through the automation engine..."
         else not_sure_reply);
      status_updated "Response ready" ].
Proof.
  intros Ht. unfold process_message. rewrite Ht. cbn [select_branch String.eqb].
  replace (select_branch "automation") with AutomationBranch by reflexivity.
  cbv iota. unfold handle_automation_intent.
  destruct (ClassifierProps.parse_intent_outcome message) as (_ & Hc & _).
  cbv zeta in Hc. rewrite Ht in Hc. rewrite Hc.
  assert (Hq : Qle_bool (Z.of_nat (hits "automation" message)
                         # Pos.of_nat (Nat.max (length (split message)) 1))
                 (3 # 10)
               = negb (3 * Nat.max (length (split message)) 1
                       <? 10 * hits "automation" message)%nat).
  { unfold Qle_bool. cbn [Qnum Qden].
    destruct (Nat.ltb_spec (3 * Nat.max (length (split message)) 1)
                (10 * hits "automation" message)); cbn [negb].
    - apply Z.leb_gt. lia.
    - apply Z.leb_le. lia. }
  rewrite Hq, negb_involutive. reflexivity.
Qed.

Lemma automation_reply_threshold_witness :
  task_type (parse_intent "open the pod bay doors") = "automation"
  /\ process_message (fun _ => None) (fun _ => None) none_configured
       "open the pod bay doors"
     = [ status_updated "Processing message...";
         response_ready not_sure_reply;
         status_updated "Response ready" ].
Proof.
  assert (H : task_type (parse_intent "open the pod bay doors") = "automation")
    by (vm_compute; reflexivity).
  split; [exact H|].
  exact (automation_reply_threshold (fun _ => None) (fun _ => None)
           none_configured "open the pod bay doors" H).
Defined.

(** X7. The response chain is consulted for the information category only:
    there the response is the chain's reply, and for every other message
    the signals do not depend on the backends or on how the engine is
    configured. *)
Theorem chain_only_for_information
  (gemini_generate_content openai_chat_completion : string -> option string)
  (e : engine) (message : string) :
  (task_type (parse_intent message) = "information" ->
   process_message gemini_generate_content openai_chat_completion e message
   = [ status_updated "Processing message...";
       response_ready
         (snd (generate_chat_response gemini_generate_content
                 openai_chat_completion e message));
       status_updated "Response ready" ])
  /\ (task_type (parse_intent message) <> "information" ->
      forall gemini' openai' e',
        process_message gemini_generate_content openai_chat_completion e message
        = process_message gemini' openai' e' message).
Proof.
  split.
  - intros Ht. unfold process_message. rewrite Ht. reflexivity.
  - intros Hne gemini' openai' e'. unfold process_message.
    destruct (task_type_cases message) as [Ht|[Ht|Ht]]; [|contradiction|];
      rewrite Ht; reflexivity.
Qed.

Lemma chain_only_for_information_witness :
  task_type (parse_intent "what is the weather") = "information"
  /\ process_message (fun _ => Some " Sunny. ") (fun _ => None) both_configured
       "what is the weather"
     = [ status_updated "Processing message...";
         response_ready "Sunny.";
         status_updated "Response ready" ].
Proof.
  assert (H : task_type (parse_intent "what is the weather") = "information")
    by (vm_compute; reflexivity).
  split; [exact H|].
  exact (proj1 (chain_only_for_information (fun _ => Some " Sunny. ")
                  (fun _ => None) both_configured "what is the weather") H).
Defined.

(** X8. [setup_ai_models] switches Gemini on exactly when the module is
    available, its key is set and its client could be built, and OpenAI on
    exactly when its key is set and the setup did not fail.  The chain reads
    the keys from the shared configuration at every call: whatever that
    configuration has become since, it starts with Gemini exactly when
    Gemini was switched on and the Gemini key is now set, with OpenAI
    exactly when it does not start with Gemini, OpenAI was switched on and
    the OpenAI key is now set, and with the local responder otherwise.  So
    a key entered after the setup does not switch its backend on, and the
    [use_gemini] field of the configuration plays no part. *)
Theorem setup_selects_backend (GEMINI_AVAILABLE gemini_client_ok : bool)
  (cfg now : AIConfig)
  (gemini_generate_content openai_chat_completion : string -> option string)
  (message : string) :
  let e0 := setup_ai_models GEMINI_AVAILABLE gemini_client_ok cfg in
  let e := with_keys e0 now in
  use_gemini e0
  = GEMINI_AVAILABLE && key_set (cfg_gemini_api_key cfg) && gemini_client_ok
  /\ use_openai e0
     = key_set (cfg_api_key cfg)
       && negb (GEMINI_AVAILABLE && key_set (cfg_gemini_api_key cfg)
                && negb gemini_client_ok)
  /\ List.head (fst (generate_chat_response gemini_generate_content
                       openai_chat_completion e message))
     = Some (if use_gemini e0 && key_set (cfg_gemini_api_key now) then Gemini
             else if use_openai e0 && key_set (cfg_api_key now) then OpenAI
             else Local)
  /\ with_keys e0 cfg = e0.
Proof.
  cbv zeta. split; [|split; [|split]].
  - unfold setup_ai_models.
    destruct GEMINI_AVAILABLE, gemini_client_ok,
      (key_set (cfg_gemini_api_key cfg)); reflexivity.
  - unfold setup_ai_models.
    destruct GEMINI_AVAILABLE, gemini_client_ok,
      (key_set (cfg_gemini_api_key cfg)), (key_set (cfg_api_key cfg));
      reflexivity.
  - unfold generate_chat_response, generate_gemini_response,
      generate_openai_response, gemini_configured, openai_configured, with_keys.
    cbn [use_gemini use_openai gemini_api_key api_key].
    destruct (use_gemini _ && key_set (cfg_gemini_api_key now)).
    + destruct (gemini_generate_content _); reflexivity.
    + destruct (use_openai _ && key_set (cfg_api_key now)); [|reflexivity].
      destruct (openai_chat_completion _); reflexivity.
  - unfold setup_ai_models, with_keys.
    destruct (GEMINI_AVAILABLE && key_set (cfg_gemini_api_key cfg));
      [destruct gemini_client_ok|]; reflexivity.
Qed.

(** X9. When the Gemini client cannot be built although its key is set,
    the setup switches OpenAI off as well: every message is answered by
    the local responder, also when an OpenAI key is configured. *)
Theorem gemini_setup_fault_disables_openai (cfg : AIConfig)
  (gemini_generate_content openai_chat_completion : string -> option string)
  (message : string) :
  key_set (cfg_gemini_api_key cfg) = true ->
  generate_chat_response gemini_generate_content openai_chat_completion
    (setup_ai_models true false cfg) message
  = ([Local], generate_local_response message).
Proof.
  intros Hg. unfold setup_ai_models. rewrite Hg. reflexivity.
Qed.

Lemma gemini_setup_fault_witness :
  key_set (Some "g-test") = true
  /\ generate_chat_response (fun _ => Some "pong") (fun _ => Some "pong")
       (setup_ai_models true false
          {| cfg_api_key := Some "sk-test"; cfg_gemini_api_key := Some "g-test";
             cfg_use_gemini := true |}) "hello"
     = ([Local], local_greeting).
Proof.
  assert (H : key_set (Some "g-test") = true) by reflexivity.
  split; [exact H|].
  exact (gemini_setup_fault_disables_openai
           {| cfg_api_key := Some "sk-test"; cfg_gemini_api_key := Some "g-test";
              cfg_use_gemini := true |} (fun _ => Some "pong")
           (fun _ => Some "pong") "hello" H).
Defined.

End PipelineProps.

(** ** The parser of the automation engine *)

Module RequestProps.
Import PyStr Re TextDefs TextProps PipelineDefs.
Import AutomationEngine DispatchDefs Executors.

Lemma all_chars_snoc p w c :
  all_chars p (w +:+ String c "") = all_chars p w && p c.
Proof. rewrite all_chars_app. cbn. rewrite andb_true_r. reflexivity. Qed.

(** The words of [split]: none is empty or holds whitespace, and each
    inherits what holds of all characters of the text. *)
Lemma split_go_words (P : ascii -> bool) cur s :
  (forall w, cur = Some w ->
             w <> "" /\ all_chars (fun c => P c && not_space c) w = true) ->
  all_chars P s = true ->
  Forall (fun w => w <> "" /\ all_chars (fun c => P c && not_space c) w = true)
    (split_go cur s).
Proof.
  revert cur. induction s as [|c s IH]; intros cur Hcur Hs; cbn [split_go].
  - destruct cur as [w|]; [|constructor].
    constructor; [apply Hcur; reflexivity|constructor].
  - cbn [all_chars] in Hs. apply andb_true_iff in Hs as [Hc Hs].
    destruct (isspace c) eqn:Hsp.
    + destruct cur as [w|]; [constructor; [apply Hcur; reflexivity|]|];
        apply IH; try exact Hs; intros w' [=].
    + apply IH; [|exact Hs]. intros w' [= <-].
      destruct cur as [w|].
      * destruct (Hcur w eq_refl) as [Hne Hall]. split.
        -- destruct w; [congruence|discriminate].
        -- rewrite all_chars_snoc, Hall. unfold not_space. rewrite Hc, Hsp.
           reflexivity.
      * split; [discriminate|]. cbn. unfold not_space. rewrite Hc, Hsp.
        reflexivity.
Qed.

Lemma split_words (P : ascii -> bool) s w :
  all_chars P s = true -> In w (split s) ->
  w <> "" /\ all_chars P w = true /\ all_chars not_space w = true.
Proof.
  intros Hs Hin.
  pose proof (split_go_words P None s (fun w' (H : None = Some w') =>
                match H with end) Hs) as Hall.
  rewrite List.Forall_forall in Hall. destruct (Hall w Hin) as [Hne Hw].
  split; [exact Hne|]. split.
  - revert Hw. apply all_chars_impl. intros c [H _]%andb_true_iff. exact H.
  - revert Hw. apply all_chars_impl. intros c [_ H]%andb_true_iff. exact H.
Qed.

Lemma lstrip_chars P s : all_chars P s = true -> all_chars P (lstrip s) = true.
Proof.
  induction s as [|c s IH]; [reflexivity|]. cbn [lstrip].
  destruct (isspace c); [|auto].
  cbn [all_chars]. intros [_ H]%andb_true_iff. auto.
Qed.

Lemma rstrip_chars P s : all_chars P s = true -> all_chars P (rstrip s) = true.
Proof.
  induction s as [|c s IH]; [reflexivity|]. cbn [rstrip all_chars].
  intros [Hc Hs]%andb_true_iff. specialize (IH Hs).
  destruct (rstrip s) as [|c' r].
  - destruct (isspace c); [reflexivity|]. cbn. rewrite Hc. reflexivity.
  - cbn [all_chars] in *. rewrite Hc, IH. reflexivity.
Qed.

Lemma strip_chars P s : all_chars P s = true -> all_chars P (strip s) = true.
Proof. intros H. apply rstrip_chars, lstrip_chars, H. Qed.

(** [v or 'unknown'] is never empty. *)
Lemma or_unknown_shape P v :
  all_chars P "unknown" = true ->
  (forall s, v = Some s -> all_chars P s = true) ->
  or_unknown v <> "" /\ all_chars P (or_unknown v) = true.
Proof.
  intros Hu Hv. unfold or_unknown. destruct v as [s|]; [|split; [discriminate|exact Hu]].
  destruct s as [|c s]; cbn [truthy]; [split; [discriminate|exact Hu]|].
  split; [discriminate|]. apply Hv. reflexivity.
Qed.

(** What [first_group] returns is group 1 of a match of one of the
    patterns. *)
Lemma first_group_some ps text g :
  first_group ps text = Some g ->
  exists p m, In p ps /\ search p text = Some m /\ group1 m = Some g.
Proof.
  induction ps as [|p ps IH]; cbn [first_group]; [discriminate|].
  destruct (search p text) as [m|] eqn:E.
  - intros Hg. exists p, m. split; [left; reflexivity|]. split; [exact E|exact Hg].
  - intros H. destruct (IH H) as (p' & m & Hin & Hs & Hg).
    exists p', m. split; [right; exact Hin|]. split; [exact Hs|exact Hg].
Qed.

Lemma first_group_lower ps request g :
  first_group ps (lower request) = Some g -> all_chars not_A_to_Z g = true.
Proof.
  intros (p & m & _ & Hs & Hg)%first_group_some.
  exact (all_chars_contains _ _ _ (search_group1_contains _ _ _ _ Hs Hg)
           (lower_no_upper request)).
Qed.

(** The canonical names of [app_mappings] are non-empty, hold none of the
    capital letters A to Z and are free of whitespace. *)
Lemma app_mappings_values k v :
  app_mappings !! k = Some v ->
  v <> "" /\ all_chars not_A_to_Z v = true /\ all_chars not_space v = true.
Proof.
  unfold app_mappings. intros Hin%elem_of_list_to_map_2.
  apply list_elem_of_In in Hin.
  revert Hin.
  match goal with
  | |- In _ ?l -> _ =>
      assert (Hall : Forall (fun kv : string * string =>
                               snd kv <> ""
                               /\ all_chars not_A_to_Z (snd kv) = true
                               /\ all_chars not_space (snd kv) = true) l)
  end.
  { repeat (constructor; [split; [discriminate|split; reflexivity]|]).
    constructor. }
  intros Hin. rewrite List.Forall_forall in Hall. exact (Hall _ Hin).
Qed.

Lemma isword_not_space c : isword c = true -> not_space c = true.
Proof.
  destruct c as [[] [] [] [] [] [] [] []]; intros H;
    first [reflexivity|vm_compute in H; discriminate H].
Qed.

Lemma word_after_verb_in words w : word_after_verb words = Some w -> In w words.
Proof.
  induction words as [|x [|y tl] IH]; cbn [word_after_verb]; try discriminate.
  destruct (existsb _ _).
  - intros [= <-]. right. left. reflexivity.
  - intros H. right. exact (IH H).
Qed.

(** A name captured by one of the three patterns of
    [parse_open_app_request]. *)
Lemma open_app_capture request g :
  first_group (AIEngine.patterns AIEngine.open_application) (lower request)
  = Some g ->
  g <> "" /\ all_chars not_A_to_Z g = true /\ all_chars not_space g = true.
Proof.
  intros H. pose proof (first_group_lower _ _ _ H) as Hl.
  apply first_group_some in H as (p & m & Hin & Hs & Hg).
  assert (Hc : group_class CWord p = true)
    by (destruct Hin as [<-|[<-|[<-|[]]]]; reflexivity).
  destruct (search_group1_class _ _ _ _ _ Hc Hs Hg) as [Hne Hw].
  split; [exact Hne|]. split; [exact Hl|].
  revert Hw. apply all_chars_impl. exact isword_not_space.
Qed.

Lemma mapped_app_shape name :
  name <> "" -> all_chars not_A_to_Z name = true ->
  all_chars not_space name = true ->
  let mapped := default name (app_mappings !! name) in
  mapped <> "" /\ all_chars not_A_to_Z mapped = true
  /\ all_chars not_space mapped = true.
Proof.
  intros Hne Hu Hs. cbv zeta.
  destruct (app_mappings !! name) as [v|] eqn:E; cbn [default].
  - exact (app_mappings_values _ _ E).
  - auto.
Qed.

Lemma parse_open_app_target request bg :
  let t := target (parse_open_app_request request bg) in
  t <> "" /\ all_chars not_A_to_Z t = true /\ all_chars not_space t = true.
Proof.
  cbv zeta. unfold parse_open_app_request.
  change [cat [RLit "open"; ws; word_group];
          cat [RLit "launch"; ws; word_group];
          cat [RLit "start"; ws; word_group]]
    with (AIEngine.patterns AIEngine.open_application).
  destruct (first_group _ (lower request)) as [g|] eqn:E.
  - destruct (open_app_capture _ _ E) as (Hne & Hu & Hs).
    assert (Ht : truthy g = true) by (destruct g; [congruence|reflexivity]).
    cbn [some_truthy]. rewrite Ht. cbn [negb]. rewrite Ht. cbn [target].
    apply mapped_app_shape; assumption.
  - cbn [some_truthy negb].
    destruct (List.find _ (split (lower request))) as [w|] eqn:Ef.
    + apply find_some in Ef as [Hin _].
      destruct (split_words not_A_to_Z _ _ (lower_no_upper request) Hin)
        as (Hne & Hu & Hs).
      assert (Ht : truthy w = true) by (destruct w; [congruence|reflexivity]).
      rewrite Ht. cbn [target]. apply mapped_app_shape; assumption.
    + cbn [target]. split; [discriminate|split; reflexivity].
Qed.

Lemma stripped_group_target ps request :
  let t := or_unknown (strip <$> first_group ps (lower request)) in
  t <> "" /\ all_chars not_A_to_Z t = true.
Proof.
  cbv zeta. apply or_unknown_shape; [reflexivity|].
  intros s Hs. destruct (first_group ps (lower request)) as [g|] eqn:E;
    [|discriminate].
  injection Hs as <-. apply strip_chars. exact (first_group_lower _ _ _ E).
Qed.

(** X10. Every task parsed from a request carries the background flag it
    was given; its target is never empty and holds none of the capital
    letters A to Z (file paths, queries and text to type are taken from
    the lower-cased request); and the target of an [open_app] task has no
    whitespace. *)
Theorem parsed_task_invariants (request : string) (bg : bool) task :
  parse_automation_request request bg = Some task ->
  background_mode task = bg
  /\ target task <> ""
  /\ all_chars not_A_to_Z (target task) = true
  /\ (action task = "open_app" -> all_chars not_space (target task) = true).
Proof.
  unfold parse_automation_request.
  repeat (case (any_in _ _)); intros [= <-]; try discriminate.
  - destruct (parse_open_app_target request bg) as (Hne & Hu & Hs).
    split; [|auto].
    unfold parse_open_app_request. repeat case_match; reflexivity.
  - destruct (stripped_group_target
                (AIEngine.patterns AIEngine.web_search) request) as [Hne Hu].
    split; [reflexivity|]. split; [exact Hne|]. split; [exact Hu|].
    intros [=].
  - split; [reflexivity|].
    destruct (stripped_group_target
                [cat [alt ["file"; "folder"]; ws; rest_group];
                 cat [alt ["open"; "create"; "save"; "delete"]; ws; rest_group]]
                request) as [Hne Hu].
    split; [exact Hne|]. split; [exact Hu|]. intros [=].
  - split; [reflexivity|]. unfold parse_system_control_request. cbn [target action].
    split; [|split; [|intros [=]]];
      repeat (destruct (contains _ (lower request)));
      first [vm_compute; reflexivity
            |intros Hx; vm_compute in Hx; discriminate Hx].
  - split; [reflexivity|]. unfold parse_interaction_request. cbn [target].
    assert (H : or_unknown (word_after_verb (split (lower request))) <> ""
                /\ all_chars not_A_to_Z
                     (or_unknown (word_after_verb (split (lower request))))
                   = true).
    { apply or_unknown_shape; [reflexivity|]. intros s Hs.
      apply word_after_verb_in in Hs.
      exact (proj1 (proj2 (split_words not_A_to_Z _ _
                             (lower_no_upper request) Hs))). }
    destruct H as [Hne Hu]. split; [exact Hne|]. split; [exact Hu|].
    cbn [action]. repeat (destruct (contains _ (lower request)); cbn [orb]);
      intros [=].
Qed.

Lemma parsed_task_invariants_witness :
  exists task,
    parse_automation_request "Type Hello World" true = Some task
    /\ background_mode task = true
    /\ target task = "hello".
Proof.
  eexists.
  assert (H : parse_automation_request "Type Hello World" true
              = Some (parse_interaction_request "Type Hello World" true))
    by (vm_compute; reflexivity).
  split; [exact H|].
  split; [exact (proj1 (parsed_task_invariants _ _ _ H))|].
  vm_compute. reflexivity.
Defined.

Lemma first_group_first_pattern ps text :
  first_group ps text
  = match AIEngine.first_pattern ps text with
    | Some (_, m) => group1 m
    | None => None
    end.
Proof.
  induction ps as [|p ps IH]; [reflexivity|].
  cbn [first_group AIEngine.first_pattern].
  destruct (search p text); [reflexivity|exact IH].
Qed.

(** A pattern that starts with a literal matches only texts that contain
    the literal. *)
Lemma search_lit_contains w tail text :
  is_Some (search (RSeq (RLit w) tail) text) -> contains w text = true.
Proof.
  intros [m Hm]. unfold search in Hm.
  apply search_from_inv in Hm as (j & _ & Hm & _).
  assert (Hs : is_Some (match_here (RSeq (RLit w) tail) (String.length text)
                          (drop j text))) by eauto.
  apply match_here_is_Some in Hs as [x Hx]. cbn [exec] in Hx.
  destruct (String.prefix w (drop j text)) eqn:Hp; [|discriminate].
  apply prefix_spec in Hp as [post Hp]. apply contains_spec.
  exists (take j text), post. rewrite <- Hp. symmetry. apply take_drop.
Qed.

(** X11. The two parsers agree on applications: when the AI engine parses
    a message as [open_app] through a template, the automation engine
    parses it as [open_app] too, with the AI engine's target as its
    [app_name] and the canonical name of that application as its target. *)
Theorem parsers_agree_on_application (message : string) t p m (bg : bool) :
  AIEngine.first_template AIEngine.task_templates (lower message)
  = Some (t, p, m) ->
  AIEngine.t_action t = "open_app" ->
  let name := snd (fst (AIEngine.extract_action_target message)) in
  exists task,
    parse_automation_request message bg = Some task
    /\ action task = "open_app"
    /\ parameters task !! "app_name" = Some (PyStr name)
    /\ target task = default name (app_mappings !! name).
Proof.
  intros H Ha. cbv zeta.
  unfold AIEngine.extract_action_target. rewrite H. cbn [fst snd].
  pose proof H as Hft.
  apply IntentProps.first_template_some in H as [Hin Hs].
  destruct (IntentProps.rules_action_patterns t p Hin) as (Ho & _).
  destruct (Ho Ha) as [-> Hp]. clear Ho.
  (* the first template is [open_application] itself *)
  assert (Hfp : AIEngine.first_pattern (AIEngine.patterns AIEngine.open_application)
                  (lower message) = Some (p, m)).
  { unfold AIEngine.task_templates in Hft. cbn [AIEngine.first_template] in Hft.
    destruct (AIEngine.first_pattern
                (AIEngine.patterns AIEngine.open_application) (lower message))
      as [[p0 m0]|]; [injection Hft as <- <-; reflexivity|].
    repeat (match type of Hft with
            | match ?x with _ => _ end = _ =>
                destruct x as [[? ?]|]; [discriminate Hft|]
            end).
    discriminate Hft. }
  assert (Hac : always_captures p = true)
    by (destruct Hp as [<-|[<-|[<-|[]]]]; reflexivity).
  destruct (captures_group p _ m Hac Hs) as [g Hg].
  rewrite (IntentProps.target_of_capture _ p m g Hin Hac Hg).
  assert (Hcw : group_class CWord p = true)
    by (destruct Hp as [<-|[<-|[<-|[]]]]; reflexivity).
  destruct (search_group1_class _ _ _ _ _ Hcw Hs Hg) as [Hne _].
  assert (Hany : any_in ["open"; "launch"; "start"] (lower message) = true).
  { unfold any_in. apply existsb_exists.
    destruct Hp as [<-|[<-|[<-|[]]]];
      [exists "open"|exists "launch"|exists "start"];
      (split; [cbn; auto|]);
      apply (search_lit_contains _ (RSeq ws word_group));
      exact (mk_is_Some _ _ Hs). }
  exists (parse_open_app_request message bg).
  unfold parse_automation_request. rewrite Hany. split; [reflexivity|].
  unfold parse_open_app_request.
  change [cat [RLit "open"; ws; word_group];
          cat [RLit "launch"; ws; word_group];
          cat [RLit "start"; ws; word_group]]
    with (AIEngine.patterns AIEngine.open_application).
  rewrite first_group_first_pattern, Hfp, Hg.
  assert (Ht : truthy g = true) by (destruct g; [congruence|reflexivity]).
  cbn [some_truthy]. rewrite Ht. cbn [negb]. rewrite Ht.
  cbn [action parameters target]. split; [reflexivity|]. split; [|reflexivity].
  rewrite lookup_insert_ne by discriminate. apply lookup_insert_eq.
Qed.

Lemma parsers_agree_witness :
  AIEngine.first_template AIEngine.task_templates (lower "Start Calc please")
  = Some (AIEngine.open_application, cat [RLit "start"; ws; word_group],
          {| group0 := "start calc"; start0 := 0;
             group1 := Some "calc"; start1 := Some 6 |})
  /\ exists task,
       parse_automation_request "Start Calc please" false = Some task
       /\ action task = "open_app"
       /\ parameters task !! "app_name" = Some (PyStr "calc")
       /\ target task = "calculator".
Proof.
  assert (H : AIEngine.first_template AIEngine.task_templates
                (lower "Start Calc please")
              = Some (AIEngine.open_application,
                      cat [RLit "start"; ws; word_group],
                      {| group0 := "start calc"; start0 := 0;
                         group1 := Some "calc"; start1 := Some 6 |}))
    by (vm_compute; reflexivity).
  split; [exact H|].
  exact (parsers_agree_on_application "Start Calc please" _ _ _ false H eq_refl).
Defined.

End RequestProps.

(** ** The executors *)

Module ExecutorProps.
Import PyStr Re TextDefs TextProps PipelineDefs.
Import AutomationEngine DispatchDefs Executors.

Lemma parsed_file_operation request bg task :
  parse_automation_request request bg = Some task ->
  action task = "file_operation" ->
  task = parse_file_operation_request request bg.
Proof.
  unfold parse_automation_request.
  repeat (case (any_in _ _)); intros [= <-]; try discriminate.
  - rewrite DispatchProps.parse_open_app_action. discriminate.
  - reflexivity.
  - pose proof (DispatchProps.parse_interaction_action request bg) as H.
    intros Ha. rewrite Ha in H. cbn in H. intuition discriminate.
Qed.

(** X12. A request to save a file is parsed but never carried out: the
    parser gives it the operation [save], which the file executor does not
    know, so the executor touches nothing and reports an unknown
    operation. *)
Theorem save_request_not_executed (h : host) (request : string) (bg : bool) task :
  parse_automation_request request bg = Some task ->
  action task = "file_operation" ->
  contains "save" (lower request) = true ->
  contains "create" (lower request) = false ->
  contains "delete" (lower request) = false ->
  contains "remove" (lower request) = false ->
  parameters task !! "operation" = Some (PyStr "save")
  /\ perform_file_operation h (target task) (parameters task)
     = ([], "Unknown operation: save").
Proof.
  intros Hp Ha Hs Hc Hd Hr.
  rewrite (parsed_file_operation _ _ _ Hp Ha).
  assert (Hop : parameters (parse_file_operation_request request bg) !! "operation"
                = Some (PyStr "save")).
  { unfold parse_file_operation_request. cbn [parameters].
    rewrite Hs, Hc, Hd, Hr. cbn [orb].
    rewrite lookup_insert_ne by discriminate. apply lookup_insert_eq. }
  split; [exact Hop|].
  unfold perform_file_operation. rewrite Hop. reflexivity.
Qed.

Lemma save_request_witness :
  exists task,
    parse_automation_request "Save File notes.txt" false = Some task
    /\ perform_file_operation easy_host (target task) (parameters task)
       = ([], "Unknown operation: save").
Proof.
  eexists.
  assert (H : parse_automation_request "Save File notes.txt" false
              = Some (parse_file_operation_request "Save File notes.txt" false))
    by (vm_compute; reflexivity).
  split; [exact H|].
  refine (proj2 (save_request_not_executed easy_host _ _ _ H _ _ _ _ _));
    vm_compute; reflexivity.
Defined.

(** X13. The file executor makes at most one call on the host, always on
    the path it was given.  It removes something only for the operation
    [delete] on an existing path, and when the path does not exist it makes
    no call at all unless the operation is [create]. *)
Theorem file_executor_discipline (h : host) (file_path : string)
  (params : gmap string pyval) :
  let calls := fst (perform_file_operation h file_path params) in
  length calls <= 1
  /\ Forall (fun a => os_action_path a = file_path) calls
  /\ (forall a, In a calls -> a = RmDir file_path \/ a = Remove file_path ->
                params !! "operation" = Some (PyStr "delete")
                /\ path_exists h file_path = true)
  /\ (path_exists h file_path = false ->
      params !! "operation" <> Some (PyStr "create") -> calls = []).
Proof.
  cbv zeta. unfold perform_file_operation, attempt.
  destruct (params !! "operation") as [[|op]|] eqn:Hop; cbn [default];
    repeat case_bool_decide; cbn [id] in *; simplify_eq;
    repeat match goal with
           | |- context [if ?b then _ else _] => destruct b eqn:?
           | |- context [match perform h ?a with _ => _ end] =>
               destruct (perform h a)
           end;
    cbn [fst length];
    (split; [lia|]);
    (split; [repeat constructor|]);
    (split; [intros a Hin Ha; cbn in Hin;
             repeat (destruct Hin as [<-|Hin]; [destruct Ha as [Ha|Ha];
                                                try discriminate Ha|]);
             try contradiction; try (split; congruence)
            |intros; try reflexivity; try congruence]).
Qed.

Lemma file_executor_discipline_witness :
  path_exists empty_host "old.txt" = false
  /\ fst (perform_file_operation empty_host "old.txt"
            {[ "operation" := PyStr "delete" ]}) = [].
Proof.
  split; [reflexivity|].
  refine (proj2 (proj2 (proj2 (file_executor_discipline empty_host "old.txt"
                                 {[ "operation" := PyStr "delete" ]}))) _ _).
  - reflexivity.
  - vm_compute. discriminate.
Defined.

Lemma any_in_app l1 l2 text :
  any_in (l1 ++ l2) text = any_in l1 text || any_in l2 text.
Proof. apply existsb_app. Qed.

(** A request is parsed exactly when one of the trigger words occurs in
    it. *)
Lemma parse_none_iff request bg :
  parse_automation_request request bg = None
  <-> any_in trigger_words (lower request) = false.
Proof.
  change trigger_words
    with (["open"; "launch"; "start"] ++ ["search"; "google"; "find"]
          ++ ["file"; "folder"; "document"]
          ++ ["volume"; "brightness"; "wifi"; "bluetooth"]
          ++ ["click"; "type"; "press"]).
  rewrite !any_in_app. unfold parse_automation_request.
  repeat (destruct (any_in _ (lower request)); cbn [orb];
          [split; intros [=]|]).
  split; reflexivity.
Qed.

(** X14. A foreground request in which none of the trigger words occurs
    emits one error, [Could not understand the automation request], and
    leaves the engine state as it was.  Every other request is parsed into
    a task with a known action, runs the executor of that action once,
    emits what the executor returned as the result of the task and no
    error, and leaves the engine idle. *)
Theorem process_request_outcomes (h : host) (d : desktop) (st : engine_state)
  (request : string) :
  let r := process_request h d st request in
  (any_in trigger_words (lower request) = false ->
   r = ([ status_updated "Processing automation request...";
          error_occurred "Could not understand the automation request" ], st))
  /\ (any_in trigger_words (lower request) = true ->
      exists task,
        parse_automation_request request false = Some task
        /\ In (action task) known_actions
        /\ r = ([ status_updated "Processing automation request...";
                  status_updated
                    ("Executing: " +:+ action task +:+ " " +:+ target task);
                  task_completed
                    (if String.eqb (action task) "open_app" then
                       snd (open_application h d (target task) (parameters task))
                     else if String.eqb (action task) "web_search" then
                       snd (perform_web_search h d (target task) (parameters task))
                     else if String.eqb (action task) "file_operation" then
                       snd (perform_file_operation h (target task) (parameters task))
                     else if String.eqb (action task) "system_control" then
                       snd (perform_system_control d (target task) (parameters task))
                     else
                       snd (perform_interaction d (action task) (target task)
                              (parameters task)));
                  status_updated "Task completed" ],
                {| current_task := None; is_running := false |})).
Proof.
  cbv zeta. unfold process_request. split.
  - intros Hn. apply (parse_none_iff request false) in Hn. rewrite Hn.
    reflexivity.
  - intros Hy.
    destruct (parse_automation_request request false) as [task|] eqn:E;
      [|apply parse_none_iff in E; congruence].
    exists task. split; [reflexivity|].
    pose proof (DispatchProps.parse_automation_request_action _ _ _ E) as Hk.
    split; [exact Hk|].
    unfold run_task, execute_task. do 4 f_equal.
    destruct (String.eqb (action task) "open_app") eqn:E1; [reflexivity|].
    destruct (String.eqb (action task) "web_search") eqn:E2; [reflexivity|].
    destruct (String.eqb (action task) "file_operation") eqn:E3; [reflexivity|].
    destruct (String.eqb (action task) "system_control") eqn:E4; [reflexivity|].
    assert (Hi : existsb (String.eqb (action task)) ["click"; "type"; "press"]
                 = true).
    { apply existsb_exists. exists (action task).
      split; [|apply String.eqb_refl].
      unfold known_actions in Hk. cbn in Hk.
      repeat match goal with
             | H : String.eqb (action task) _ = false |- _ =>
                 apply String.eqb_neq in H
             end.
      cbn. intuition congruence. }
    rewrite Hi. reflexivity.
Qed.

Lemma process_request_witness :
  (any_in trigger_words (lower "make me a sandwich") = false
   /\ process_request easy_host calm_desktop
        {| current_task := None; is_running := false |} "make me a sandwich"
      = ([ status_updated "Processing automation request...";
           error_occurred "Could not understand the automation request" ],
         {| current_task := None; is_running := false |}))
  /\ (any_in trigger_words (lower "Open Winamp") = true
      /\ process_request easy_host bare_desktop
           {| current_task := None; is_running := false |} "Open Winamp"
         = ([ status_updated "Processing automation request...";
              status_updated "Executing: open_app winamp";
              task_completed "Could not find application: winamp";
              status_updated "Task completed" ],
            {| current_task := None; is_running := false |})).
Proof.
  split.
  - assert (H : any_in trigger_words (lower "make me a sandwich") = false)
      by (vm_compute; reflexivity).
    split; [exact H|].
    exact (proj1 (process_request_outcomes easy_host calm_desktop _ _) H).
  - assert (H : any_in trigger_words (lower "Open Winamp") = true)
      by (vm_compute; reflexivity).
    split; [exact H|].
    destruct (proj2 (process_request_outcomes easy_host bare_desktop
                       {| current_task := None; is_running := false |}
                       "Open Winamp") H) as (task & Hp & _ & Hr).
    rewrite Hr. vm_compute in Hp. injection Hp as <-.
    vm_compute. reflexivity.
Defined.

Lemma get_app_path_nonempty name path :
  get_app_path name = Some path -> truthy path = true.
Proof.
  intros H.
  assert (Hk : exists key, app_paths !! key = Some path).
  { unfold get_app_path in H.
    destruct (app_paths !! name) as [p0|] eqn:E1; [injection H as <-; eauto|].
    destruct (app_aliases !! name) as [c|]; [eauto|].
    destruct (app_mappings !! name) as [c|]; [eauto|discriminate]. }
  destruct Hk as [key Hk].
  apply elem_of_list_to_map_2, list_elem_of_In in Hk. cbn in Hk.
  repeat (destruct Hk as [[= <- <-]|Hk]; [reflexivity|]). destruct Hk.
Qed.

(** X15. [open_application] makes exactly one [Popen] call.  When the
    tables resolve the name to a path and that file exists, the call is on
    the path, and any exception is reported as an error of opening.
    Otherwise the call is on the bare name, and a [FileNotFoundError] is
    reported as [Could not find application: ] and the name. *)
Theorem open_application_launches_once (h : host) (d : desktop)
  (app_name : string) (params : gmap string pyval) :
  let r := open_application h d app_name params in
  (forall path,
      get_app_path app_name = Some path -> path_exists h path = true ->
      r = ([Popen [path]],
           match popen d [path] with
           | Started => "Opened " +:+ app_name
           | NotFound e | LaunchError e =>
               "Error opening " +:+ app_name +:+ ": " +:+ e
           end))
  /\ (get_app_path app_name = None
      \/ (exists path, get_app_path app_name = Some path
                       /\ path_exists h path = false) ->
      r = ([Popen [app_name]],
           match popen d [app_name] with
           | Started => "Opened " +:+ app_name
           | NotFound _ => "Could not find application: " +:+ app_name
           | LaunchError e => "Error opening " +:+ app_name +:+ ": " +:+ e
           end)).
Proof.
  cbv zeta. unfold open_application, launch_by_name. split.
  - intros path Hp He. rewrite Hp, (get_app_path_nonempty _ _ Hp), He.
    cbn [andb]. destruct (popen d [path]); reflexivity.
  - intros [Hn|(path & Hp & He)].
    + rewrite Hn. destruct (popen d [app_name]); reflexivity.
    + rewrite Hp, He, andb_false_r. destruct (popen d [app_name]); reflexivity.
Qed.

Lemma open_application_witness :
  (get_app_path "browser"
   = Some "C:\Program Files\Google\Chrome\Application\chrome.exe"
   /\ open_application easy_host calm_desktop "browser" ∅
      = ([Popen ["C:\Program Files\Google\Chrome\Application\chrome.exe"]],
         "Opened browser"))
  /\ (get_app_path "winamp" = None
      /\ open_application easy_host bare_desktop "winamp" ∅
         = ([Popen ["winamp"]], "Could not find application: winamp")).
Proof.
  split.
  - assert (H : get_app_path "browser"
                = Some "C:\Program Files\Google\Chrome\Application\chrome.exe")
      by (vm_compute; reflexivity).
    split; [exact H|].
    exact (proj1 (open_application_launches_once easy_host calm_desktop
                    "browser" ∅) _ H eq_refl).
  - assert (H : get_app_path "winamp" = None) by (vm_compute; reflexivity).
    split; [exact H|].
    exact (proj2 (open_application_launches_once easy_host bare_desktop
                    "winamp" ∅) (or_introl H)).
Defined.

Lemma list_to_map_In (l : list (string * string)) k v :
  (list_to_map l : gmap string string) !! k = Some v -> In (k, v) l.
Proof. intros H%elem_of_list_to_map_2. apply list_elem_of_In, H. Qed.

(** X16. The three tables of application names agree with each other: a
    name with a path of its own resolves to it, every alias resolves to the
    path of its application, which exists in the table of paths, and a name
    of the mapping table resolves to the path of its canonical name, if
    there is one, whichever table finds the name first. *)
Theorem get_app_path_tables :
  (forall name path,
      app_paths !! name = Some path -> get_app_path name = Some path)
  /\ (forall name canonical,
         app_aliases !! name = Some canonical ->
         is_Some (app_paths !! canonical)
         /\ get_app_path name = app_paths !! canonical)
  /\ (forall name canonical,
         app_mappings !! name = Some canonical ->
         get_app_path name = app_paths !! canonical)
  /\ (forall name path,
         get_app_path name = Some path ->
         path <> "" /\ exists key, app_paths !! key = Some path).
Proof.
  split; [|split; [|split]].
  - intros name path H. unfold get_app_path. rewrite H. reflexivity.
  - intros name canonical H. apply list_to_map_In in H. cbn in H.
    repeat (destruct H as [[= <- <-]|H]; [split; vm_compute; eauto|]).
    destruct H.
  - intros name canonical H. apply list_to_map_In in H. cbn in H.
    repeat (destruct H as [[= <- <-]|H]; [vm_compute; reflexivity|]).
    destruct H.
  - intros name path H.
    assert (Hk : exists key, app_paths !! key = Some path).
    { unfold get_app_path in H.
      destruct (app_paths !! name) as [p0|] eqn:E1; [injection H as <-; eauto|].
      destruct (app_aliases !! name) as [c|]; [eauto|].
      destruct (app_mappings !! name) as [c|]; [eauto|discriminate]. }
    split; [|exact Hk]. destruct Hk as [key Hk].
    apply list_to_map_In in Hk. cbn in Hk.
    repeat (destruct Hk as [[= <- <-]|Hk]; [discriminate|]). destruct Hk.
Qed.

Lemma get_app_path_tables_witness :
  app_aliases !! "browser" = Some "chrome"
  /\ get_app_path "browser"
     = Some "C:\Program Files\Google\Chrome\Application\chrome.exe".
Proof.
  assert (H : app_aliases !! "browser" = Some "chrome") by (vm_compute; reflexivity).
  split; [exact H|].
  exact (proj2 (proj1 (proj2 get_app_path_tables) "browser" "chrome" H)).
Defined.

Lemma replace_char_length a b s :
  String.length b = 1 ->
  String.length (replace_char a b s) = String.length s.
Proof.
  intros Hb. induction s as [|c s IH]; [reflexivity|].
  cbn [replace_char]. rewrite length_app, IH.
  destruct (Ascii.eqb c a); [rewrite Hb|]; reflexivity.
Qed.

Lemma replace_char_gone a b s :
  all_chars (fun c => negb (Ascii.eqb c a)) b = true ->
  all_chars (fun c => negb (Ascii.eqb c a)) (replace_char a b s) = true.
Proof.
  intros Hb. induction s as [|c s IH]; [reflexivity|].
  cbn [replace_char]. rewrite all_chars_app, IH, andb_true_r.
  destruct (Ascii.eqb c a) eqn:E; [exact Hb|].
  cbn. rewrite E. reflexivity.
Qed.

(** X17. A web search makes exactly one call, with the Google search
    address of the query: a [Popen] of Chrome when its executable exists,
    and a call of the default browser otherwise; it reports the search when
    the call returns and an error when it raises.  The address has no space
    (each space of the query is replaced by a plus sign) and is 32
    characters longer than the query. *)
Theorem web_search_address (h : host) (d : desktop) (query : string)
  (params : gmap string pyval) :
  let chrome := "C:\Program Files\Google\Chrome\Application\chrome.exe" in
  let url := search_url query in
  app_paths !! "chrome" = Some chrome
  /\ perform_web_search h d query params
     = (if path_exists h chrome then
          ([Popen [chrome; url]],
           match popen d [chrome; url] with
           | Started => "Searched for: " +:+ query
           | NotFound e | LaunchError e =>
               "Error searching for " +:+ query +:+ ": " +:+ e
           end)
        else
          ([BrowserOpen url],
           match webbrowser_open d url with
           | None => "Searched for: " +:+ query
           | Some e => "Error searching for " +:+ query +:+ ": " +:+ e
           end))
  /\ all_chars (fun c => negb (Ascii.eqb c " ")) url = true
  /\ String.length url = 32 + String.length query.
Proof.
  cbv zeta. split; [vm_compute; reflexivity|]. split; [|split].
  - unfold perform_web_search.
    replace (app_paths !! "chrome")
      with (Some "C:\Program Files\Google\Chrome\Application\chrome.exe")
      by (vm_compute; reflexivity).
    cbn [truthy andb].
    destruct (path_exists h _).
    + destruct (popen d _); reflexivity.
    + destruct (webbrowser_open d _); reflexivity.
  - unfold search_url. rewrite all_chars_app.
    rewrite replace_char_gone by reflexivity. reflexivity.
  - unfold search_url. rewrite length_app, replace_char_length by reflexivity.
    reflexivity.
Qed.

(** X18. [perform_system_control] acts on the volume for the values up,
    down and off, on the brightness for up and down, and on wifi and
    bluetooth for any value, with one call each; for every other
    combination, [volume on] among them, it makes no call and reports an
    unknown control type. *)
Theorem system_control_handled (d : desktop) (control_type : string)
  (params : gmap string pyval) :
  let value := default (PyStr "unknown") (params !! "value") in
  let r := perform_system_control d control_type params in
  if handled control_type value then length (fst r) = 1
  else r = ([], "Unknown control type: " +:+ control_type).
Proof.
  cbv zeta. unfold perform_system_control, handled, press_then.
  generalize (default (PyStr "unknown") (params !! "value")) as value.
  intros value. cbn [existsb].
  destruct (String.eqb control_type "volume") eqn:Ev.
  { apply String.eqb_eq in Ev as ->. cbn [andb orb].
    repeat (case_bool_decide; cbn [orb];
            [destruct (press d _); reflexivity|]).
    reflexivity. }
  destruct (String.eqb control_type "brightness") eqn:Eb.
  { apply String.eqb_eq in Eb as ->. cbn [andb orb].
    repeat (case_bool_decide; cbn [orb];
            [destruct (press d _); reflexivity|]).
    reflexivity. }
  cbn [andb orb].
  destruct (String.eqb control_type "wifi");
    [cbn [orb]; destruct (popen d _); reflexivity|].
  destruct (String.eqb control_type "bluetooth"); cbn [orb];
    [destruct (popen d _); reflexivity|reflexivity].
Qed.

End ExecutorProps.

(** ** The operation of a file task *)

Module FileOperationProps.
Import PyStr Re TextDefs PipelineDefs ChainDefs.
Import AutomationEngine DispatchDefs Executors.

(** The operation that [parse_file_operation_request] stores. *)
Lemma parsed_operation request bg :
  exists op,
    parameters (parse_file_operation_request request bg) !! "operation"
    = Some (PyStr op)
    /\ In op ["open"; "create"; "delete"; "save"]
    /\ (op = "open"
        <-> contains "create" (lower request) = false
            /\ contains "delete" (lower request) = false
            /\ contains "remove" (lower request) = false
            /\ contains "save" (lower request) = false).
Proof.
  unfold parse_file_operation_request. cbn [parameters].
  eexists. split.
  { rewrite lookup_insert_ne by discriminate. apply lookup_insert_eq. }
  destruct (contains "create" (lower request)),
    (contains "delete" (lower request)),
    (contains "remove" (lower request)),
    (contains "save" (lower request)); cbn;
    (split; [auto 6|split; [intros [=]|intros (? & ? & ? & ?); congruence]]);
    repeat split; reflexivity.
Qed.

(** C10, as stated, fails: the AI engine does not execute what it parses.
    [Delete file Report.txt] is parsed as a [file_operation] without an
    [operation], but [process_message] only answers it; on the way that
    does reach the file executor, through the parser of the automation
    engine, the same request carries the operation [delete] and the file
    is removed, not opened. *)
Lemma ai_file_operation_not_executed :
  AIEngine.extract_action_target "Delete file Report.txt"
  = ("file_operation", "report.txt", {[ "file_path" := PyStr "report.txt" ]})
  /\ AIEngine.process_message (fun _ => None) (fun _ => None) none_configured
       "Delete file Report.txt"
     = [ status_updated "Processing message...";
         response_ready not_sure_reply;
         status_updated "Response ready" ]
  /\ exists task,
       parse_automation_request "Delete file Report.txt" false = Some task
       /\ action task = "file_operation"
       /\ parameters task !! "operation" = Some (PyStr "delete")
       /\ perform_file_operation easy_host (target task) (parameters task)
          = ([Remove "report.txt"], "Deleted file: report.txt")
       /\ perform_file_operation easy_host (target task) (parameters task)
          <> open_file easy_host (target task).
Proof.
  split; [vm_compute; reflexivity|]. split; [vm_compute; reflexivity|].
  eexists. split; [vm_compute; reflexivity|].
  split; [reflexivity|]. split; [vm_compute; reflexivity|].
  split; [vm_compute; reflexivity|]. vm_compute. discriminate.
Qed.

(** C10, amended. The parameter pass stores no key other than [app_name],
    [query] and [file_path]: the [file_operation] template declares
    [operation], but nothing extracts it, so no intent of the AI engine
    carries it.  The AI engine does not execute its intents:
    [process_message] emits a reply and nothing else.  The file executor
    runs on the tasks that [process_request] parses, and the parser of the
    automation engine always stores an operation: [open], [create],
    [delete] or [save], and [open] exactly when the request names none of
    create, delete, remove and save.  The default [open] of the executor
    applies only to parameters without the key. *)
Theorem operation_never_extracted :
  (forall message t,
      dom (AIEngine.extract_parameters message t)
      ⊆ ({[ "app_name"; "query"; "file_path" ]} : gset string))
  /\ AIEngine.mem "operation" (AIEngine.t_parameters AIEngine.file_operation)
     = true
  /\ (forall message,
         snd (AIEngine.extract_action_target message) !! "operation" = None)
  /\ (forall gemini_generate_content openai_chat_completion e message,
         exists response,
           AIEngine.process_message gemini_generate_content
             openai_chat_completion e message
           = [ status_updated "Processing message...";
               response_ready response;
               status_updated "Response ready" ])
  /\ (forall request bg task,
         parse_automation_request request bg = Some task ->
         action task = "file_operation" ->
         exists op,
           parameters task !! "operation" = Some (PyStr op)
           /\ In op ["open"; "create"; "delete"; "save"]
           /\ (op = "open"
               <-> contains "create" (lower request) = false
                   /\ contains "delete" (lower request) = false
                   /\ contains "remove" (lower request) = false
                   /\ contains "save" (lower request) = false))
  /\ (forall h d st request task,
         parse_automation_request request false = Some task ->
         action task = "file_operation" ->
         fst (process_request h d st request)
         = [ status_updated "Processing automation request...";
             status_updated ("Executing: file_operation " +:+ target task);
             task_completed
               (snd (perform_file_operation h (target task) (parameters task)));
             status_updated "Task completed" ])
  /\ (forall h file_path (params : gmap string pyval),
         params !! "operation" = None ->
         perform_file_operation h file_path params = open_file h file_path).
Proof.
  split; [apply ParserProps.extract_parameters_dom|].
  split; [reflexivity|]. split; [|split; [|split; [|split]]].
  - intros message.
    pose proof (ParserProps.extract_action_target_dom message) as Hdom.
    apply not_elem_of_dom. intros Hin. apply Hdom in Hin.
    set_unfold in Hin. intuition discriminate.
  - intros gem oai e message. eexists. reflexivity.
  - intros request bg task Hp Ha.
    rewrite (ExecutorProps.parsed_file_operation _ _ _ Hp Ha).
    apply parsed_operation.
  - intros h d st request task Hp Ha.
    unfold process_request. rewrite Hp. cbn [fst].
    unfold run_task, execute_task. rewrite Ha. reflexivity.
  - apply DispatchProps.perform_file_operation_default.
Qed.

Lemma operation_never_extracted_witness :
  (exists task,
      parse_automation_request "show folder Music" false = Some task
      /\ action task = "file_operation"
      /\ parameters task !! "operation" = Some (PyStr "open")
      /\ fst (process_request easy_host calm_desktop
                {| current_task := None; is_running := false |}
                "show folder Music")
         = [ status_updated "Processing automation request...";
             status_updated ("Executing: file_operation " +:+ target task);
             task_completed
               (snd (perform_file_operation easy_host (target task)
                       (parameters task)));
             status_updated "Task completed" ])
  /\ ((∅ : gmap string pyval) !! "operation" = None
      /\ perform_file_operation easy_host "report.txt" ∅
         = ([StartFile "report.txt"], "Opened: report.txt")).
Proof.
  split.
  - eexists.
    assert (H : parse_automation_request "show folder Music" false
                = Some (parse_file_operation_request "show folder Music" false))
      by (vm_compute; reflexivity).
    split; [exact H|]. split; [reflexivity|].
    destruct operation_never_extracted as (_ & _ & _ & _ & Hop & Hrun & _).
    split; [|exact (Hrun _ _ _ _ _ H eq_refl)].
    destruct (Hop _ _ _ H eq_refl) as (op & Hop' & _ & Hiff).
    rewrite Hop'. do 2 f_equal. apply Hiff.
    repeat split; vm_compute; reflexivity.
  - assert (H : (∅ : gmap string pyval) !! "operation" = None) by reflexivity.
    split; [exact H|].
    destruct operation_never_extracted as (_ & _ & _ & _ & _ & _ & Hdef).
    exact (Hdef easy_host "report.txt" ∅ H).
Defined.

End FileOperationProps.
